(** * network_scanner.py: a ping-based host discovery tool

    A shallow embedding of [src/network_scanner.py] together with the parts
    of the Python standard library it relies on:

    - [ipaddress]: IPv4 network construction with [strict=False] and the
      [hosts()] enumeration (module [ipaddress] below);
    - [concurrent.futures]: the thread pool, as a labelled transition
      system whose runs are driven by an explicit schedule (section
      [Coordinator]);
    - [os]: a file system with permission bits, [os.open], [os.remove];
    - [print]: the text goes to [sys.stdout], whose encoder may refuse it;
    - exceptions: an error monad ([result]).

    IPv4 addresses are the integers [0 .. 2^32-1] that [IPv4Address._ip]
    holds. Command-line arguments are taken as [argparse] delivers them.
    Standard output is taken to be open and writable: what is printed is
    not recorded, but a [print] whose text the stream cannot encode raises
    [UnicodeEncodeError], as it does in the program. *)

From Stdlib Require Import ZArith Lia Ascii.
From stdpp Require Import base option list list_numbers strings pretty gmap sorting.

Local Open Scope Z_scope.

(** ** Exceptions *)

(** The subclasses of [Exception] that the program can meet.
    [AddressValueError] and [NetmaskValueError] derive from [ValueError];
    [UnicodeEncodeError] does so too, through [UnicodeError]. *)
Inductive exn : Type :=
  | ValueError (msg : string)
  | AddressValueError (msg : string)
  | NetmaskValueError (msg : string)
  | UnicodeEncodeError (msg : string)
  | TimeoutExpired
  | OSError (errno : Z)
  | OtherException (name : string).

(** [isinstance(e, ValueError)] *)
Definition is_ValueError (e : exn) : bool :=
  match e with
  | ValueError _ | AddressValueError _ | NetmaskValueError _
  | UnicodeEncodeError _ => true
  | _ => false
  end.

(** [str(e)] for an [e] that [except ValueError as e] catches *)
Definition str_of_ValueError (e : exn) : option string :=
  match e with
  | ValueError msg | AddressValueError msg | NetmaskValueError msg
  | UnicodeEncodeError msg => Some msg
  | _ => None
  end.

Inductive result (A : Type) : Type :=
  | Ok (a : A)
  | Raise (e : exn).
Arguments Ok {A} a.
Arguments Raise {A} e.

#[global] Instance result_ret : MRet result := fun A a => Ok a.
#[global] Instance result_bind : MBind result := fun A B k m =>
  match m with
  | Ok a => k a
  | Raise e => Raise e
  end.

(** [try: body except Exception as e: handler(e)] *)
Definition try_except {A} (body : result A) (handler : exn -> result A) : result A :=
  match body with
  | Ok a => Ok a
  | Raise e => handler e
  end.

Definition newline : string := String (Ascii.ascii_of_nat 10) EmptyString.

(** ** The [ipaddress] module, IPv4 part *)

Module ipaddress.

Definition max_prefixlen : Z := 32.
Definition ALL_ONES : Z := 2 ^ 32 - 1.

(** [s.split(c)] *)
Fixpoint split (c : ascii) (s : string) : list string :=
  match s with
  | EmptyString => [EmptyString]
  | String a s' =>
      if Ascii.eqb a c then EmptyString :: split c s'
      else match split c s' with
           | [] => [String a EmptyString]
           | h :: t => String a h :: t
           end
  end.

Definition digit_value (a : ascii) : option Z :=
  let n := Z.of_nat (Ascii.nat_of_ascii a) in
  if (48 <=? n) && (n <=? 57) then Some (n - 48) else None.

(** [s.isascii() and s.isdigit()] *)
Fixpoint all_digits (s : string) : bool :=
  match s with
  | EmptyString => true
  | String a s' => bool_decide (is_Some (digit_value a)) && all_digits s'
  end.

Definition isascii_isdigit (s : string) : bool :=
  match s with
  | EmptyString => false
  | _ => all_digits s
  end.

(** [int(s, 10)] on a string of ASCII digits *)
Fixpoint int_digits (acc : Z) (s : string) : Z :=
  match s with
  | EmptyString => acc
  | String a s' => int_digits (10 * acc + default 0 (digit_value a)) s'
  end.

Definition int_of_string (s : string) : Z := int_digits 0 s.

(** [_BaseV4._parse_octet] *)
Definition parse_octet (octet_str : string) : result Z :=
  match octet_str with
  | EmptyString => Raise (ValueError "Empty octet not permitted")
  | String a0 _ =>
      if negb (isascii_isdigit octet_str) then
        Raise (ValueError "Only decimal digits permitted")
      else if (3 <? Z.of_nat (String.length octet_str))%Z then
        Raise (ValueError "At most 3 characters permitted")
      else if negb (String.eqb octet_str "0") && Ascii.eqb a0 "0" then
        Raise (ValueError "Leading zeros are not permitted")
      else
        let octet_int := int_of_string octet_str in
        if 255 <? octet_int then Raise (ValueError "Octet > 255 not permitted")
        else Ok octet_int
  end.

(** [int.from_bytes(octets, 'big')] *)
Definition from_bytes_big (octets : list Z) : Z :=
  foldl (fun acc o => 256 * acc + o) 0 octets.

Fixpoint mapM {A B} (f : A -> result B) (l : list A) : result (list B) :=
  match l with
  | [] => Ok []
  | x :: l' => y ← f x; ys ← mapM f l'; Ok (y :: ys)
  end.

(** [_BaseV4._ip_int_from_string]: a [ValueError] of an octet is re-raised
    as [AddressValueError]. *)
Definition ip_int_from_string (ip_str : string) : result Z :=
  match ip_str with
  | EmptyString => Raise (AddressValueError "Address cannot be empty")
  | _ =>
      let octets := split "." ip_str in
      if negb (length octets =? 4)%nat then
        Raise (AddressValueError "Expected 4 octets")
      else
        try_except (os ← mapM parse_octet octets; Ok (from_bytes_big os))
                   (fun _ => Raise (AddressValueError "invalid octet"))
  end.

(** [_BaseV4._ip_int_from_prefix] *)
Definition ip_int_from_prefix (prefixlen : Z) : Z :=
  Z.lxor ALL_ONES (Z.shiftr ALL_ONES prefixlen).

(** [int.bit_length] on a non-negative integer *)
Definition bit_length (n : Z) : Z :=
  if n =? 0 then 0 else Z.log2 n + 1.

(** [_count_righthand_zero_bits] *)
Definition count_righthand_zero_bits (number bits : Z) : Z :=
  if number =? 0 then bits
  else Z.min bits (bit_length (Z.land (Z.lnot number) (number - 1))).

(** [_IPAddressBase._prefix_from_ip_int] *)
Definition prefix_from_ip_int (ip_int : Z) : result Z :=
  let trailing_zeroes := count_righthand_zero_bits ip_int max_prefixlen in
  let prefixlen := max_prefixlen - trailing_zeroes in
  let leading_ones := Z.shiftr ip_int trailing_zeroes in
  let all_ones := Z.shiftl 1 prefixlen - 1 in
  if negb (leading_ones =? all_ones) then
    Raise (ValueError "Netmask pattern mixes zeroes & ones")
  else Ok prefixlen.

(** [sys.int_info.default_max_str_digits]: [int(s)] raises [ValueError]
    on a longer string of digits (Python 3.11 and later). *)
Definition int_max_str_digits : Z := 4300.

(** [_IPAddressBase._prefix_from_prefix_string]; the [ValueError] of
    [int] is reported as an invalid netmask. *)
Definition prefix_from_prefix_string (prefixlen_str : string) : result Z :=
  if negb (isascii_isdigit prefixlen_str) then
    Raise (NetmaskValueError "is not a valid netmask")
  else if int_max_str_digits <? Z.of_nat (String.length prefixlen_str) then
    Raise (NetmaskValueError "is not a valid netmask")
  else
    let prefixlen := int_of_string prefixlen_str in
    if negb ((0 <=? prefixlen) && (prefixlen <=? max_prefixlen)) then
      Raise (NetmaskValueError "is not a valid netmask")
    else Ok prefixlen.

(** [_IPAddressBase._prefix_from_ip_string]: a netmask, or else a
    hostmask, in dotted-quad form *)
Definition prefix_from_ip_string (ip_str : string) : result Z :=
  match ip_int_from_string ip_str with
  | Raise _ => Raise (NetmaskValueError "is not a valid netmask")
  | Ok ip_int =>
      try_except (prefix_from_ip_int ip_int) (fun _ =>
        try_except (prefix_from_ip_int (Z.lxor ip_int ALL_ONES)) (fun _ =>
          Raise (NetmaskValueError "is not a valid netmask")))
  end.

(** The mask argument that [_split_addr_prefix] hands to [_make_netmask]:
    the text after the slash, or the integer 32 when there is no slash. *)
Inductive mask_arg : Type :=
  | MaskInt (n : Z)
  | MaskStr (s : string).

(** [_BaseV4._make_netmask], the prefix length it computes *)
Definition make_netmask (arg : mask_arg) : result Z :=
  match arg with
  | MaskInt prefixlen =>
      if negb ((0 <=? prefixlen) && (prefixlen <=? max_prefixlen)) then
        Raise (NetmaskValueError "is not a valid netmask")
      else Ok prefixlen
  | MaskStr s =>
      match prefix_from_prefix_string s with
      | Ok prefixlen => Ok prefixlen
      | Raise _ => prefix_from_ip_string s
      end
  end.

(** [_split_optional_netmask] followed by [_split_addr_prefix], on text *)
Definition split_addr_prefix (address : string) : result (string * mask_arg) :=
  match split "/" address with
  | [addr] => Ok (addr, MaskInt max_prefixlen)
  | [addr; mask] => Ok (addr, MaskStr mask)
  | _ => Raise (AddressValueError "Only one '/' permitted")
  end.

(** An [IPv4Network] object: its [network_address] (as an integer) and its
    [_prefixlen]; [netmask], [hostmask] and [broadcast_address] are the
    properties computed from them. *)
Record IPv4Network : Type := mkNetwork {
  network_address : Z;
  prefixlen : Z
}.

Definition netmask (net : IPv4Network) : Z := ip_int_from_prefix (prefixlen net).
Definition hostmask (net : IPv4Network) : Z := Z.lxor (netmask net) ALL_ONES.
Definition broadcast_address (net : IPv4Network) : Z :=
  Z.lor (network_address net) (hostmask net).

(** The second half of [IPv4Network.__init__]: the host-bits test on an
    already parsed address and prefix length. *)
Definition make_network (packed prefixlen : Z) (strict : bool) : result IPv4Network :=
  let nm := ip_int_from_prefix prefixlen in
  if negb (Z.land packed nm =? packed) then
    if strict then Raise (ValueError "has host bits set")
    else Ok (mkNetwork (Z.land packed nm) prefixlen)
  else Ok (mkNetwork packed prefixlen).

(** [IPv4Network(address, strict)] on text *)
Definition IPv4Network_init (address : string) (strict : bool) : result IPv4Network :=
  '(addr, mask) ← split_addr_prefix address;
  packed ← ip_int_from_string addr;
  prefixlen ← make_netmask mask;
  make_network packed prefixlen strict.

(** [ipaddress.ip_network(address, strict)], its IPv4 branch: the text is
    tried as an [IPv4Network] first, and what that constructor accepts is
    what the function returns. After an [AddressValueError] or
    [NetmaskValueError] the library tries the text as an [IPv6Network]
    before it raises the [ValueError] of the last line; IPv6 is outside
    this development, so this function agrees with the library on every
    text that the IPv4 constructor accepts and on every text that both
    constructors reject, and the scanner below takes the parser as a
    parameter. *)
Definition ip_network (address : string) (strict : bool) : result IPv4Network :=
  try_except (IPv4Network_init address strict)
    (fun e =>
       match e with
       | AddressValueError _ | NetmaskValueError _ =>
           Raise (ValueError "does not appear to be an IPv4 or IPv6 network")
       | _ => Raise e
       end).

(** [range(a, b)] *)
Definition range (a b : Z) : list Z := seqZ a (b - a).

(** [IPv4Network.hosts()]: the addresses strictly between the network and
    the broadcast address; [__init__] rebinds it to [__iter__] for a /31
    and to the single address for a /32. *)
Definition hosts (net : IPv4Network) : list Z :=
  if prefixlen net =? max_prefixlen - 1 then
    range (network_address net) (broadcast_address net + 1)
  else if prefixlen net =? max_prefixlen then
    [network_address net]
  else
    range (network_address net + 1) (broadcast_address net).

(** [str(IPv4Address(n))]: the dotted quad *)
Definition octet (n : Z) (i : Z) : Z := Z.land (Z.shiftr n (8 * i)) 255.

Definition str (ip : Z) : string :=
  pretty (octet ip 3) +:+ "." +:+ pretty (octet ip 2) +:+ "." +:+
  pretty (octet ip 1) +:+ "." +:+ pretty (octet ip 0).

End ipaddress.

(** ** Probing one host *)

Definition DEFAULT_MAX_WORKERS : Z := 30.
Definition PING_TIMEOUT_SEC : Z := 1.
(** [0o600] *)
Definition SAVE_FILE_MODE : Z := 384.

(** What the program sees of the machine it runs on. *)
Record world : Type := mkWorld {
  (** [platform.system().lower()] *)
  system : string;
  (** [subprocess.run(cmd, ..., timeout=t)]: the return code of the
      completed process, or the exception raised ([TimeoutExpired], an
      [OSError] when the utility cannot be started, ...) *)
  subprocess_run : list string -> Z -> result Z;
  (** [tempfile.gettempdir()] and [os.path.join] *)
  gettempdir : string;
  path_join : string -> string -> string;
  (** the two readings of [datetime.utcnow()] in [save_results_securely],
      formatted by [strftime("%Y%m%dT%H%M%SZ")] and by [isoformat()] *)
  utcnow_strftime : string;
  utcnow_isoformat : string;
  (** the process's file mode creation mask *)
  umask : Z;
  (** I/O failures met by [os.open], by writing through the file object
      (with the number of characters that reached the file before the
      failure), and by [os.remove]; each with its [errno] *)
  open_fault : option Z;
  write_fault : option (Z * nat);
  remove_fault : option Z;
  (** the encoder of [sys.stdout] on a text that is not plain ASCII:
      [None] when it encodes the text, the message of the
      [UnicodeEncodeError] it raises when it does not *)
  stdout_rejects : string -> option string
}.

(** [text.isascii()] *)
Fixpoint isascii (text : string) : bool :=
  match text with
  | EmptyString => true
  | String a text' => (Ascii.nat_of_ascii a <? 128)%nat && isascii text'
  end.

(** [print(text)]: the text is encoded for [sys.stdout] and written.
    Strings hold the UTF-8 bytes of the source's text; plain ASCII is
    encoded by every codec a console or a redirected stream uses. *)
Definition print (w : world) (text : string) : result unit :=
  if isascii text then Ok ()
  else match stdout_rejects w text with
       | Some msg => Raise (UnicodeEncodeError msg)
       | None => Ok ()
       end.
Arguments print : simpl never.

Definition platform_ping_command (w : world) (ip : string) : list string :=
  if String.eqb (system w) "windows" then
    ["ping"; "-n"; "1"; "-w"; "1000"; ip]
  else
    ["ping"; "-c"; "1"; "-W"; "1"; ip].

Definition ping_host (w : world) (ip : string) : result bool :=
  try_except
    (let cmd := platform_ping_command w ip in
     returncode ← subprocess_run w cmd (PING_TIMEOUT_SEC + 1);
     Ok (returncode =? 0))
    (fun e =>
       match e with
       | TimeoutExpired => Ok false
       | _ => Ok false
       end).

(** ** The scan: a thread pool driven by a schedule *)

(** Where the main thread is in [scan_network]'s [with] statement:
    inside the block (building the dict, then looping over
    [as_completed]); leaving it, that is inside [executor.__exit__], which
    calls [shutdown(wait=True)], with the exception in flight if the block
    raised one; or past it. *)
Inductive phase : Type :=
  | InBlock
  | Leaving (e : option exn)
  | Returned
  | Raised (e : exn).

(** The moves of the main thread, of the worker threads and of the
    environment. A schedule is a list of them. *)
Inductive event : Type :=
  | Signal            (* SIGINT or SIGTERM is delivered: [handle_signal] sets
                         the flag, then prints a line of plain ASCII *)
  | Submit            (* the comprehension calls [executor.submit] on the next host *)
  | Start             (* an idle worker thread takes the head of the work queue *)
  | Finish (i : nat)  (* the [i]-th running probe returns; its future is done *)
  | Yield (i : nat)   (* [as_completed] yields the [i]-th done future: one loop iteration *)
  | Exhaust           (* [as_completed] has yielded every future: the loop ends *)
  | Join.             (* [shutdown(wait=True)] returns: the [with] statement is left *)

Section Coordinator.

Context {A : Type}.
(** The callable submitted to the executor, the [print] of the loop body
    and the [max_workers] argument. *)
Variable probe : A -> result bool.
Variable announce : A -> result unit.
Variable max_workers : Z.

Record state : Type := mkState {
  pending : list A;             (* hosts the comprehension has still to submit *)
  work_queue : list A;          (* submitted, waiting for a worker *)
  threads : nat;                (* worker threads the executor has spawned *)
  running : list A;             (* probes being run by a worker *)
  finished : list A;            (* done futures whose result has not been read *)
  consumed : list A;            (* futures whose result the loop body has read *)
  active : list A;
  shutdown_requested : bool;
  pc : phase
}.

(** The state in which the [with] statement is entered. The flag is the
    module's global, [False] when the module is loaded: a schedule starts
    with the process, and a signal delivered before the scan is a [Signal]
    ahead of the first [Submit]. *)
Definition init (hosts : list A) : state :=
  mkState hosts [] 0 [] [] [] [] false InBlock.

(** [executor.submit]: the work item is queued, and a worker thread is
    spawned unless [max_workers] threads exist ([_adjust_thread_count];
    the reuse of an idle worker is not modelled, which only allows more
    threads than the executor would really have). *)
Definition submit (s : state) (ip : A) (rest : list A) : state :=
  mkState rest (work_queue s ++ [ip])
          (if Z.of_nat (threads s) <? max_workers then S (threads s) else threads s)
          (running s) (finished s) (consumed s) (active s)
          (shutdown_requested s) (pc s).

(** The body of the [for] loop, past the test of the flag:
    [try: if future.result(): print(...); active.append(ip)
     except Exception: continue].
    [future.result()] returns what the probe returned or raises what it
    raised; the probe being a function of the address, that is [probe ip]
    for the future of [ip]. The line is printed before the address is
    appended, inside the [try]: a [print] that raises leaves [active] as
    it was. *)
Definition loop_body (act : list A) (ip : A) : result (list A) :=
  try_except
    (reachable ← probe ip;
     if reachable : bool then
       _ ← announce ip;
       Ok (act ++ [ip])
     else Ok act)
    (fun _ => Ok act).

Definition set_pc (s : state) (p : phase) : state :=
  mkState (pending s) (work_queue s) (threads s) (running s) (finished s)
          (consumed s) (active s) (shutdown_requested s) p.

Definition step (s : state) (ev : event) : option state :=
  match ev with
  | Signal =>
      match pc s with
      | InBlock | Leaving _ =>
          Some (mkState (pending s) (work_queue s) (threads s) (running s)
                        (finished s) (consumed s) (active s) true (pc s))
      | _ => None
      end
  | Submit =>
      match pc s, pending s with
      | InBlock, ip :: rest => Some (submit s ip rest)
      | _, _ => None
      end
  | Start =>
      match work_queue s with
      | ip :: q =>
          if (length (running s) <? threads s)%nat then
            Some (mkState (pending s) q (threads s) (running s ++ [ip])
                          (finished s) (consumed s) (active s)
                          (shutdown_requested s) (pc s))
          else None
      | [] => None
      end
  | Finish i =>
      match running s !! i with
      | Some ip =>
          Some (mkState (pending s) (work_queue s) (threads s)
                        (delete i (running s)) (finished s ++ [ip])
                        (consumed s) (active s) (shutdown_requested s) (pc s))
      | None => None
      end
  | Yield i =>
      match pc s, pending s, finished s !! i with
      | InBlock, [], Some ip =>
          if shutdown_requested s then Some (set_pc s (Leaving None))
          else
            match loop_body (active s) ip with
            | Ok act =>
                Some (mkState (pending s) (work_queue s) (threads s) (running s)
                              (delete i (finished s)) (consumed s ++ [ip]) act
                              (shutdown_requested s) (pc s))
            | Raise e =>
                Some (mkState (pending s) (work_queue s) (threads s) (running s)
                              (delete i (finished s)) (consumed s ++ [ip])
                              (active s) (shutdown_requested s) (Leaving (Some e)))
            end
      | _, _, _ => None
      end
  | Exhaust =>
      match pc s, pending s, work_queue s, running s, finished s with
      | InBlock, [], [], [], [] => Some (set_pc s (Leaving None))
      | _, _, _, _, _ => None
      end
  | Join =>
      match pc s, work_queue s, running s with
      | Leaving oe, [], [] =>
          Some (set_pc s (match oe with None => Returned | Some e => Raised e end))
      | _, _, _ => None
      end
  end.

(** Running a schedule; [None] when it asks for a move that is not
    possible in the state reached. *)
Fixpoint exec (s : state) (sched : list event) : option state :=
  match sched with
  | [] => Some s
  | ev :: sched' =>
      match step s ev with
      | Some s' => exec s' sched'
      | None => None
      end
  end.

(** The addresses a worker has called the probe on. *)
Definition probed (s : state) : list A :=
  consumed s ++ finished s ++ running s.

(** What the [with] statement of [scan_network] evaluates to under a
    schedule: the value returned or the exception raised, with the final
    state; [None] if the schedule stops before the statement is left. *)
Definition run_pool (hosts : list A) (sched : list event) : option (result (list A) * state) :=
  match exec (init hosts) sched with
  | Some s =>
      match pc s with
      | Returned => Some (Ok (active s), s)
      | Raised e => Some (Raise e, s)
      | _ => None
      end
  | None => None
  end.

(** A schedule that runs the statement to its end from any state: submit
    what is left, run the probes one after the other, read the results,
    leave. [next_move] picks the move, [fuel] bounds their number. *)
Definition next_move (s : state) : option event :=
  match pc s with
  | InBlock =>
      match pending s, running s, work_queue s, finished s with
      | _ :: _, _, _, _ => Some Submit
      | [], _ :: _, _, _ => Some (Finish 0)
      | [], [], _ :: _, _ => Some Start
      | [], [], [], _ :: _ => Some (Yield 0)
      | [], [], [], [] => Some Exhaust
      end
  | Leaving _ =>
      match running s, work_queue s with
      | _ :: _, _ => Some (Finish 0)
      | [], _ :: _ => Some Start
      | [], [] => Some Join
      end
  | _ => None
  end.

Fixpoint drain (fuel : nat) (s : state) : list event :=
  match fuel with
  | O => []
  | S fuel' =>
      match next_move s with
      | Some ev =>
          match step s ev with
          | Some s' => ev :: drain fuel' s'
          | None => []
          end
      | None => []
      end
  end.

End Coordinator.

Arguments state A : clear implicits.

(** ** [scan_network] *)

Record scan_outcome : Type := mkScanOutcome {
  scan_result : result (list string);
  (** the addresses [ping_host] was called on *)
  scan_probed : list string
}.

Section Scanner.

(** [ipaddress.ip_network], taken as a parameter: [ipaddress.ip_network]
    above is the instance for IPv4 text. *)
Variable ip_network : string -> bool -> result ipaddress.IPv4Network.
Variable w : world.

(** The line that the loop prints for an address found reachable. *)
Definition active_message (ip : string) : string := "✔️ Active: " +:+ ip.

Definition print_active (ip : string) : result unit := print w (active_message ip).

(** [ThreadPoolExecutor.__init__] refuses [max_workers <= 0]. *)
Definition scan_network (network_cidr : string) (max_workers : Z)
    (sched : list event) : option scan_outcome :=
  match try_except (ip_network network_cidr false)
          (fun e => if is_ValueError e
                    then Raise (ValueError "Invalid network format. Use e.g. 192.168.1.0/24")
                    else Raise e) with
  | Raise e => Some (mkScanOutcome (Raise e) [])
  | Ok net =>
      if max_workers <=? 0 then
        Some (mkScanOutcome (Raise (ValueError "max_workers must be greater than 0")) [])
      else
        '(r, s) ← run_pool (ping_host w) print_active max_workers
                    (ipaddress.str <$> ipaddress.hosts net) sched;
        Some (mkScanOutcome r (probed s))
  end.

End Scanner.

(** ** The file system and [save_results_securely] *)

Record file : Type := mkFile {
  st_mode : Z;
  contents : string
}.

Inductive oflag : Type := O_WRONLY | O_CREAT | O_TRUNC.

#[global] Instance oflag_eq_dec : EqDecision oflag.
Proof. solve_decision. Defined.

Definition ENOENT : Z := 2.

Section Files.

Variable w : world.

(** [os.open(path, flags, mode)]: an existing file keeps its permission
    bits (and is emptied under [O_TRUNC]); a file that [O_CREAT] creates
    gets [mode & ~umask]. The descriptor is identified with the path.
    The file system maps a path to the file found there; symbolic and
    hard links, through which two paths reach one file, are not part of
    it, and the statements below speak only of the path that is written
    to. *)
Definition os_open (fs : gmap string file) (path : string) (flags : list oflag)
    (mode : Z) : result (gmap string file) :=
  match open_fault w with
  | Some errno => Raise (OSError errno)
  | None =>
      match fs !! path with
      | Some f =>
          if bool_decide (O_TRUNC ∈ flags)
          then Ok (<[path := mkFile (st_mode f) ""]> fs)
          else Ok fs
      | None =>
          if bool_decide (O_CREAT ∈ flags)
          then Ok (<[path := mkFile (Z.land mode (Z.lnot (umask w))) ""]> fs)
          else Raise (OSError ENOENT)
      end
  end.

Definition append_contents (text : string) (f : file) : file :=
  mkFile (st_mode f) (contents f +:+ text).

(** The [with os.fdopen(fd, "w") as f:] block, which writes [text] through
    the buffered file object and closes it: all of the text reaches the
    file, or a failure leaves a prefix of it there and raises. *)
Definition write_and_close (fs : gmap string file) (path : string) (text : string)
    : result unit * gmap string file :=
  match write_fault w with
  | Some (errno, n) =>
      (Raise (OSError errno), alter (append_contents (String.substring 0 n text)) path fs)
  | None => (Ok (), alter (append_contents text) path fs)
  end.

(** [os.remove(path)] *)
Definition os_remove (fs : gmap string file) (path : string)
    : result unit * gmap string file :=
  match remove_fault w with
  | Some errno => (Raise (OSError errno), fs)
  | None =>
      match fs !! path with
      | Some _ => (Ok (), delete path fs)
      | None => (Raise (OSError ENOENT), fs)
      end
  end.

(** ["\n".join(hosts)] *)
Definition join_lines (hosts : list string) : string :=
  String.concat newline hosts.

Definition default_filename : string :=
  path_join w (gettempdir w) ("scan_" +:+ utcnow_strftime w +:+ ".txt").

(** The text that the three [f.write] calls hand to the file object. *)
Definition report (hosts : list string) : string :=
  ("Scan results - host discovery" +:+ newline) +:+
  ("Timestamp (UTC): " +:+ utcnow_isoformat w +:+ "Z" +:+ newline) +:+
  (join_lines hosts +:+ (match hosts with [] => "" | _ => newline end)).

Definition save_results_securely (hosts : list string) (filename : option string)
    (fs : gmap string file) : result string * gmap string file :=
  let filename :=
    match filename with
    | None | Some EmptyString => default_filename
    | Some name => name
    end in
  let flags := [O_WRONLY; O_CREAT; O_TRUNC] in
  match os_open fs filename flags SAVE_FILE_MODE with
  | Raise e => (Raise e, fs)
  | Ok fs1 =>
      match write_and_close fs1 filename (report hosts) with
      | (Ok _, fs2) => (Ok filename, fs2)
      | (Raise e, fs2) =>
          (* try: os.remove(filename) except Exception: pass; raise e *)
          let fs3 := snd (os_remove fs2 filename) in
          (Raise e, fs3)
      end
  end.

End Files.

(** ** [main] *)

Record args : Type := mkArgs {
  network : string;
  confirm_legal : bool;
  save : bool;
  arg_max_workers : Z
}.

Record outcome : Type := mkOutcome {
  exit_status : Z;
  (** the addresses that were probed *)
  out_probed : list string;
  out_files : gmap string file
}.

(** The texts that [main] prints. *)
Definition confirm_notice : string :=
  "❗ You MUST confirm you have permission to scan the network.".
Definition confirm_hint : string :=
  "Re-run with --confirm-legal after obtaining permission.".
Definition workers_notice : string := "max-workers must be between 1 and 200".
Definition scanning_message (a : args) : string :=
  "[+] Scanning " +:+ network a +:+ " (max workers=" +:+
  pretty (arg_max_workers a) +:+ ")".
Definition completed_message : string := newline +:+ "--- Scan Completed ---".
Definition total_message (hosts : list string) : string :=
  "Total active hosts: " +:+ pretty (length hosts).
Definition saved_message (path : string) : string :=
  "[+] Results saved to: " +:+ path +:+ " (owner-only permissions)".
Definition value_error_message (msg : string) : string := "❌ " +:+ msg.
Definition unexpected_message : string :=
  "❌ An unexpected error occurred. Exiting.".

(** [print(...); sys.exit(n)] where no handler is in reach: the status is
    [n], or 1 when the [print] raises, the interpreter ending a run on an
    uncaught exception with a traceback and status 1. *)
Definition print_and_exit (printed : result unit) (n : Z) : Z :=
  match printed with
  | Ok _ => n
  | Raise _ => 1
  end.
Arguments print_and_exit : simpl never.

Section Main.

Variable ip_network : string -> bool -> result ipaddress.IPv4Network.
Variable w : world.

(** The [try] block of [main]: how it ends, with the addresses probed and
    the file system it leaves. *)
Definition main_try (a : args) (fs : gmap string file) (sched : list event)
    : option (result unit * list string * gmap string file) :=
  match print w (scanning_message a) with
  | Raise e => Some (Raise e, [], fs)
  | Ok _ =>
      sc ← scan_network ip_network w (network a) (arg_max_workers a) sched;
      match scan_result sc with
      | Raise e => Some (Raise e, scan_probed sc, fs)
      | Ok hosts =>
          match (_ ← print w completed_message; print w (total_message hosts)) with
          | Raise e => Some (Raise e, scan_probed sc, fs)
          | Ok _ =>
              if save a then
                match save_results_securely w hosts None fs with
                | (Raise e, fs') => Some (Raise e, scan_probed sc, fs')
                | (Ok path, fs') =>
                    Some (print w (saved_message path), scan_probed sc, fs')
                end
              else Some (Ok (), scan_probed sc, fs)
          end
      end
  end.

(** The two [except] clauses of [main], each a [print] followed by
    [sys.exit]. *)
Definition main_except (e : exn) : Z :=
  match str_of_ValueError e with
  | Some msg => print_and_exit (print w (value_error_message msg)) 2
  | None => print_and_exit (print w unexpected_message) 1
  end.

(** [main] on parsed arguments, a file system and a schedule for the
    scan; a run that is not stopped by [sys.exit] or by an exception ends
    with status 0. *)
Definition main (a : args) (fs : gmap string file) (sched : list event)
    : option outcome :=
  if negb (confirm_legal a) then
    Some (mkOutcome
            (print_and_exit (_ ← print w confirm_notice; print w confirm_hint) 2)
            [] fs)
  else if (arg_max_workers a <? 1) || (200 <? arg_max_workers a) then
    Some (mkOutcome (print_and_exit (print w workers_notice) 2) [] fs)
  else
    '(r, probed, fs') ← main_try a fs sched;
    Some (mkOutcome (match r with Ok _ => 0 | Raise e => main_except e end)
                    probed fs').

End Main.

(** ** Vocabulary of the statements below *)

(** A network as [IPv4Network.__init__] builds it: a prefix length between
    0 and 32 and a 32-bit network address without host bits. *)
Definition valid_network (net : ipaddress.IPv4Network) : Prop :=
  0 <= ipaddress.prefixlen net <= 32 /\
  0 <= ipaddress.network_address net < 2 ^ 32 /\
  Z.land (ipaddress.network_address net) (ipaddress.netmask net)
  = ipaddress.network_address net.

(** [c in s] *)
Fixpoint has_char (c : ascii) (s : string) : bool :=
  match s with
  | EmptyString => false
  | String a s' => Ascii.eqb a c || has_char c s'
  end.

(** The decimal text of an octet parses back to it and has no dot. *)
Definition octet_text_ok (o : Z) : bool :=
  match ipaddress.parse_octet (pretty o) with
  | Ok v => (v =? o) && negb (has_char "." (pretty o))
  | Raise _ => false
  end.

Section CoordinatorVocabulary.

Context {A : Type}.
Variable probe : A -> result bool.
Variable announce : A -> result unit.
Variable max_workers : Z.

(** The probe of [ip] returns [True]. *)
Definition reachable (ip : A) : bool :=
  match probe ip with
  | Ok true => true
  | _ => false
  end.

(** The line for [ip] can be printed. *)
Definition announced (ip : A) : bool :=
  match announce ip with
  | Ok _ => true
  | Raise _ => false
  end.

(** What the loop body appends: the address is reachable and its line
    was printed. *)
Definition collected (ip : A) : bool := reachable ip && announced ip.

(** The moves as a relation; [step_moves] below shows that [step] makes
    no other ones. *)
Inductive moves : state A -> event -> state A -> Prop :=
  | moves_signal p q t r f c a fl ph :
      ph = InBlock \/ (exists oe, ph = Leaving oe) ->
      moves (mkState p q t r f c a fl ph) Signal (mkState p q t r f c a true ph)
  | moves_submit ip p q t r f c a fl :
      moves (mkState (ip :: p) q t r f c a fl InBlock) Submit
            (mkState p (q ++ [ip]) (if Z.of_nat t <? max_workers then S t else t)
                     r f c a fl InBlock)
  | moves_start ip p q t r f c a fl ph :
      (length r < t)%nat ->
      moves (mkState p (ip :: q) t r f c a fl ph) Start
            (mkState p q t (r ++ [ip]) f c a fl ph)
  | moves_finish i ip p q t r f c a fl ph :
      r !! i = Some ip ->
      moves (mkState p q t r f c a fl ph) (Finish i)
            (mkState p q t (delete i r) (f ++ [ip]) c a fl ph)
  | moves_break i ip q t r f c a :
      f !! i = Some ip ->
      moves (mkState [] q t r f c a true InBlock) (Yield i)
            (mkState [] q t r f c a true (Leaving None))
  | moves_yield i ip q t r f c a :
      f !! i = Some ip ->
      moves (mkState [] q t r f c a false InBlock) (Yield i)
            (mkState [] q t r (delete i f) (c ++ [ip])
                     (if collected ip then a ++ [ip] else a) false InBlock)
  | moves_exhaust t c a fl :
      moves (mkState [] [] t [] [] c a fl InBlock) Exhaust
            (mkState [] [] t [] [] c a fl (Leaving None))
  | moves_join p t f c a fl oe :
      moves (mkState p [] t [] f c a fl (Leaving oe)) Join
            (mkState p [] t [] f c a fl
                     (match oe with None => Returned | Some e => Raised e end)).

Definition measure (s : state A) : nat :=
  4 * length (pending s) + 3 * length (work_queue s) + 2 * length (running s)
  + length (finished s)
  + match pc s with InBlock => 2 | Leaving _ => 1 | _ => 0 end.

(** Every address is in exactly one stage of the pipeline. *)
Definition conserved (hosts : list A) (s : state A) : Prop :=
  hosts ≡ₚ pending s ++ work_queue s ++ running s ++ finished s ++ consumed s.

(** The state of a run in which no signal has arrived: the block is only
    left through the end of the loop. *)
Definition undisturbed (s : state A) : Prop :=
  shutdown_requested s = false /\
  (pc s = InBlock \/
   (pending s = [] /\ work_queue s = [] /\ running s = [] /\ finished s = [])).

Definition well_formed (s : state A) : Prop :=
  active s = filter (fun ip => collected ip) (consumed s) /\
  (length (running s) <= threads s)%nat /\
  (threads s = 0%nat \/ Z.of_nat (threads s) <= max_workers) /\
  (1 <= max_workers -> work_queue s <> [] -> (1 <= threads s)%nat) /\
  match pc s with
  | InBlock => True
  | Leaving None => pending s = []
  | Returned => pending s = [] /\ work_queue s = [] /\ running s = []
  | Leaving (Some _) | Raised _ => False
  end.

End CoordinatorVocabulary.

(** A text made of the given lines, each ended by a newline. *)
Definition unlines (lines : list string) : string :=
  foldr (fun l acc => l +:+ newline +:+ acc) "" lines.

(** The file that [save_results_securely] writes to. *)
Definition target (w : world) (filename : option string) : string :=
  match filename with
  | None | Some EmptyString =>
      path_join w (gettempdir w) ("scan_" +:+ utcnow_strftime w +:+ ".txt")
  | Some name => name
  end.

(** The usage errors of the command line: no confirmation, a worker count
    outside [1, 200], a network text that [ip_network] rejects. *)
Definition validation_error
    (ip_network : string -> bool -> result ipaddress.IPv4Network) (a : args) : Prop :=
  confirm_legal a = false \/
  arg_max_workers a < 1 \/
  200 < arg_max_workers a \/
  exists e, ip_network (network a) false = Raise e /\ is_ValueError e = true.

(** A Linux machine with a UTF-8 terminal on which every host answers,
    and variants: one on which only 192.168.1.1 answers and the other
    pings time out, one on which the disk fills up after ten characters of
    the report, one on which, on top of that, the results file cannot be
    removed (it is another user's file, writable by all, in a directory
    with the sticky bit). *)
Definition linux_all_up : world :=
  mkWorld "linux" (fun _ _ => Ok 0) "/tmp" (fun d f => d +:+ "/" +:+ f)
          "20260101T000000Z" "2026-01-01T00:00:00" 18 None None None
          (fun _ => None).

Definition linux_one_up : world :=
  mkWorld "linux"
          (fun cmd _ => if bool_decide (last cmd = Some "192.168.1.1")
                        then Ok 0 else Raise TimeoutExpired)
          "/tmp" (fun d f => d +:+ "/" +:+ f)
          "20260101T000000Z" "2026-01-01T00:00:00" 18 None None None
          (fun _ => None).

Definition ENOSPC : Z := 28.
Definition EPERM : Z := 1.

Definition linux_disk_full : world :=
  mkWorld "linux" (fun _ _ => Ok 0) "/tmp" (fun d f => d +:+ "/" +:+ f)
          "20260101T000000Z" "2026-01-01T00:00:00" 18 None (Some (ENOSPC, 10%nat)) None
          (fun _ => None).

Definition linux_disk_full_sticky : world :=
  mkWorld "linux" (fun _ _ => Ok 0) "/tmp" (fun d f => d +:+ "/" +:+ f)
          "20260101T000000Z" "2026-01-01T00:00:00" 18 None (Some (ENOSPC, 10%nat))
          (Some EPERM) (fun _ => None).

(** The same machine with a standard output that encodes to ASCII (the
    C locale of Python 3.6, or [PYTHONIOENCODING=ascii]): every text that
    is not plain ASCII is refused. The message of the exception is
    shortened. *)
Definition ascii_codec_message : string :=
  "'ascii' codec can't encode character: ordinal not in range(128)".

Definition linux_ascii_stdout : world :=
  mkWorld "linux" (fun _ _ => Ok 0) "/tmp" (fun d f => d +:+ "/" +:+ f)
          "20260101T000000Z" "2026-01-01T00:00:00" 18 None None None
          (fun _ => Some ascii_codec_message).

(** ** Vocabulary of the further properties *)

(** The text [a.b.c.d/p] of an address and a prefix length. *)
Definition cidr_text (a p : Z) : string :=
  ipaddress.str a +:+ "/" +:+ pretty p.

(** The decimal text of a prefix length parses back to it and has no
    slash; the decimal text of an octet has no slash. *)
Definition prefix_text_ok (p : Z) : bool :=
  match ipaddress.prefix_from_prefix_string (pretty p) with
  | Ok v => (v =? p) && negb (has_char "/" (pretty p))
  | Raise _ => false
  end.

Definition octet_no_slash (o : Z) : bool := negb (has_char "/" (pretty o)).

(** The schedule that runs a scan of [n] addresses one probe at a time:
    the comprehension submits them all, the workers take and finish them
    one after the other, the loop reads the results in that order, and the
    [with] statement is left. *)
Definition sequential (n : nat) : list event :=
  replicate n Submit ++ mjoin (replicate n [Start; Finish 0]) ++
  replicate n (Yield 0) ++ [Exhaust; Join].

(** Reading a saved file back: [text.split("\n")]. *)
Definition newline_char : ascii := Ascii.ascii_of_nat 10.

Definition read_lines (text : string) : list string :=
  ipaddress.split newline_char text.

(** The decimal text of an octet has no line break. *)
Definition octet_one_line (o : Z) : bool := negb (has_char newline_char (pretty o)).

(** The permission bits of the file that a save leaves at [path]. *)
Definition saved_mode (w : world) (fs : gmap string file) (path : string) : Z :=
  match fs !! path with
  | Some old => st_mode old
  | None => Z.land SAVE_FILE_MODE (Z.lnot (umask w))
  end.

(** * Address enumeration *)

Module ipaddress_facts.
Import ipaddress.

(** Properties of a prefix length are checked on the 33 of them. *)
Lemma prefixlen_cases p : 0 <= p <= 32 ->
  p ∈ [0; 1; 2; 3; 4; 5; 6; 7; 8; 9; 10; 11; 12; 13; 14; 15; 16; 17; 18; 19;
       20; 21; 22; 23; 24; 25; 26; 27; 28; 29; 30; 31; 32].
Proof. intros Hp. change (p ∈ seqZ 0 33). apply elem_of_seqZ. lia. Qed.

Ltac by_prefixlen H :=
  apply prefixlen_cases in H;
  repeat (apply elem_of_cons in H as [-> | H]; [ vm_compute; reflexivity | ]);
  by apply elem_of_nil in H.

Lemma netmask_value p : 0 <= p <= 32 ->
  ip_int_from_prefix p = 2 ^ 32 - 2 ^ (32 - p).
Proof. intros H. by_prefixlen H. Qed.

Lemma hostmask_value p : 0 <= p <= 32 ->
  Z.lxor (ip_int_from_prefix p) ALL_ONES = Z.ones (32 - p).
Proof. intros H. by_prefixlen H. Qed.

Lemma masks_disjoint p : 0 <= p <= 32 ->
  Z.land (ip_int_from_prefix p) (Z.ones (32 - p)) = 0.
Proof. intros H. by_prefixlen H. Qed.

Lemma masks_cover p : 0 <= p <= 32 ->
  Z.lor (ip_int_from_prefix p) (Z.ones (32 - p)) = Z.ones 32.
Proof. intros H. by_prefixlen H. Qed.

Lemma lor_disjoint_add x y : Z.land x y = 0 -> Z.lor x y = x + y.
Proof.
  intros H. rewrite <- (Z.lxor_lor _ _ H). symmetry. by apply Z.add_nocarry_lxor.
Qed.

Lemma land_split_disjoint a m h :
  Z.land m h = 0 -> Z.land (Z.land a m) (Z.land a h) = 0.
Proof.
  intros H. apply Z.bits_inj'. intros n Hn.
  rewrite !Z.land_spec, Z.bits_0.
  assert (Hb : Z.testbit m n && Z.testbit h n = false)
    by (rewrite <- Z.land_spec, H; apply Z.bits_0).
  destruct (Z.testbit a n), (Z.testbit m n), (Z.testbit h n); done.
Qed.

(** Clearing the host bits of [a] rounds it down to a multiple of the
    network size. *)
Lemma land_netmask a p : 0 <= a < 2 ^ 32 -> 0 <= p <= 32 ->
  Z.land a (ip_int_from_prefix p) = a - a mod 2 ^ (32 - p).
Proof.
  intros Ha Hp.
  assert (Hsplit : a = Z.land a (ip_int_from_prefix p) + Z.land a (Z.ones (32 - p))).
  { rewrite <- lor_disjoint_add by (apply land_split_disjoint, masks_disjoint; lia).
    rewrite <- Z.land_lor_distr_r, masks_cover by lia.
    rewrite Z.land_ones by lia. symmetry. apply Z.mod_small. lia. }
  rewrite Z.land_ones in Hsplit by lia. lia.
Qed.

Lemma land_netmask_idemp a p : 0 <= p <= 32 ->
  Z.land (Z.land a (ip_int_from_prefix p)) (ip_int_from_prefix p)
  = Z.land a (ip_int_from_prefix p).
Proof. intros _. by rewrite <- Z.land_assoc, Z.land_diag. Qed.

Lemma land_netmask_range a p : 0 <= a < 2 ^ 32 -> 0 <= p <= 32 ->
  0 <= Z.land a (ip_int_from_prefix p) <= a.
Proof.
  intros Ha Hp. rewrite land_netmask by done.
  pose proof (Z.mod_pos_bound a (2 ^ (32 - p))) as Hm.
  assert (0 < 2 ^ (32 - p)) by (apply Z.pow_pos_nonneg; lia).
  assert (a mod 2 ^ (32 - p) <= a) by (apply Z.mod_le; lia).
  lia.
Qed.

(** [make_network] with [strict=False] always succeeds, with the host
    bits cleared. *)
Lemma make_network_nonstrict a p :
  make_network a p false = Ok (mkNetwork (Z.land a (ip_int_from_prefix p)) p).
Proof.
  unfold make_network.
  destruct (Z.eqb_spec (Z.land a (ip_int_from_prefix p)) a) as [Heq|]; simpl; [|done].
  by rewrite Heq.
Qed.

Lemma make_network_valid a p strict net :
  0 <= a < 2 ^ 32 -> 0 <= p <= 32 ->
  make_network a p strict = Ok net -> valid_network net.
Proof.
  intros Ha Hp. unfold make_network.
  destruct (Z.eqb_spec (Z.land a (ip_int_from_prefix p)) a) as [Heq|]; simpl.
  - intros [= <-]. by repeat split; simpl; try lia.
  - destruct strict; [done|]. intros [= <-].
    pose proof (land_netmask_range a p Ha Hp).
    repeat split; simpl; try lia. by apply land_netmask_idemp.
Qed.

Section ValidNetwork.

Variable net : IPv4Network.
Hypothesis Hnet : valid_network net.

Lemma size_pos : 0 < 2 ^ (32 - prefixlen net).
Proof. destruct Hnet as (? & _). apply Z.pow_pos_nonneg; lia. Qed.

Lemma hostmask_size : hostmask net = 2 ^ (32 - prefixlen net) - 1.
Proof.
  destruct Hnet as (Hp & _). unfold hostmask, netmask.
  rewrite hostmask_value by done. rewrite Z.ones_equiv. lia.
Qed.

Lemma network_aligned : network_address net mod 2 ^ (32 - prefixlen net) = 0.
Proof.
  destruct Hnet as (Hp & Ha & Hal). unfold netmask in Hal.
  rewrite land_netmask in Hal by done. lia.
Qed.

(** The broadcast address is the last address of the block. *)
Lemma broadcast_value :
  broadcast_address net = network_address net + 2 ^ (32 - prefixlen net) - 1.
Proof.
  destruct Hnet as (Hp & Ha & Hal). unfold broadcast_address.
  rewrite lor_disjoint_add, hostmask_size; [lia|].
  rewrite <- Hal. unfold hostmask, netmask. rewrite hostmask_value by done.
  rewrite <- Z.land_assoc, masks_disjoint by done. apply Z.land_0_r.
Qed.

Lemma broadcast_range : broadcast_address net < 2 ^ 32.
Proof.
  rewrite broadcast_value. destruct Hnet as (Hp & Ha & _).
  pose proof network_aligned as Hal. pose proof size_pos as Hs.
  apply Z.mod_divide in Hal; [|lia]. destruct Hal as [q Hq].
  assert (Hpow : 2 ^ 32 = 2 ^ prefixlen net * 2 ^ (32 - prefixlen net)).
  { rewrite <- Z.pow_add_r by lia. f_equal. lia. }
  assert (q < 2 ^ prefixlen net) by nia.
  nia.
Qed.

Lemma hosts_range x : x ∈ hosts net -> 0 <= x < 2 ^ 32.
Proof.
  pose proof broadcast_range as Hb. pose proof broadcast_value as Hv.
  pose proof size_pos as Hs. destruct Hnet as (Hp & Ha & _).
  unfold hosts, range, max_prefixlen.
  repeat case_match; rewrite ?elem_of_seqZ, ?list_elem_of_singleton; lia.
Qed.

Lemma hosts_NoDup : NoDup (hosts net).
Proof.
  unfold hosts, range. repeat case_match; try apply NoDup_seqZ.
  apply NoDup_singleton.
Qed.

End ValidNetwork.

Lemma seqZ_sorted n : forall a, StronglySorted Z.lt (seqZ a (Z.of_nat n)).
Proof.
  induction n as [|n IH]; intros a.
  - rewrite seqZ_nil by lia. constructor.
  - rewrite seqZ_cons by lia. constructor.
    + replace (Z.pred (Z.of_nat (S n))) with (Z.of_nat n) by lia. apply IH.
    + apply Forall_seqZ. lia.
Qed.

Lemma range_sorted a b : StronglySorted Z.lt (range a b).
Proof.
  unfold range. destruct (Z_le_gt_dec (b - a) 0) as [Hle|Hgt].
  - rewrite seqZ_nil by done. constructor.
  - rewrite <- (Z2Nat.id (b - a)) by lia. apply seqZ_sorted.
Qed.

Lemma digit_value_range a d : digit_value a = Some d -> 0 <= d <= 9.
Proof. unfold digit_value. case_match; [|done]. intros [= <-]. lia. Qed.

Lemma int_digits_nonneg s : forall acc, 0 <= acc -> 0 <= int_digits acc s.
Proof.
  induction s as [|a s IH]; intros acc Hacc; simpl; [done|].
  apply IH. destruct (digit_value a) as [d|] eqn:Hd; simpl; [|lia].
  apply digit_value_range in Hd. lia.
Qed.

Lemma parse_octet_range s o : parse_octet s = Ok o -> 0 <= o <= 255.
Proof.
  unfold parse_octet. destruct s as [|a0 s]; [done|].
  repeat case_match; try done. intros [= <-].
  split; [apply int_digits_nonneg; lia | lia].
Qed.

Lemma mapM_Forall {A B} (f : A -> result B) (P : B -> Prop) l l' :
  (forall x y, f x = Ok y -> P y) ->
  mapM f l = Ok l' -> Forall P l' /\ length l' = length l.
Proof.
  intros Hf. revert l'. induction l as [|x l IH]; intros l'; simpl.
  - intros [= <-]. by split.
  - destruct (f x) as [y|] eqn:Hy; simpl; [|done].
    destruct (mapM f l) as [ys|] eqn:Hys; simpl; [|done].
    intros [= <-]. destruct (IH ys eq_refl) as [HF Hlen].
    split; [constructor; eauto | simpl; congruence].
Qed.

Lemma ip_int_from_string_range s a :
  ip_int_from_string s = Ok a -> 0 <= a < 2 ^ 32.
Proof.
  unfold ip_int_from_string. destruct s as [|c s]; [done|].
  case_match eqn:Hlen; [done|].
  apply negb_false_iff, Nat.eqb_eq in Hlen.
  destruct (mapM parse_octet _) as [os|] eqn:Hos; simpl; [|done].
  intros [= <-].
  destruct (mapM_Forall _ (fun o => 0 <= o <= 255) _ _ parse_octet_range Hos) as [HF Hl].
  rewrite Hlen in Hl.
  destruct os as [|o1 [|o2 [|o3 [|o4 [|]]]]]; simplify_eq/=.
  repeat match goal with H : Forall _ (_ :: _) |- _ => apply Forall_cons in H as [? H] end.
  unfold from_bytes_big. simpl. lia.
Qed.

Lemma bit_length_nonneg n : 0 <= bit_length n.
Proof.
  unfold bit_length. case_match; [done|]. pose proof (Z.log2_nonneg n). lia.
Qed.

Lemma prefix_from_ip_int_range x p : prefix_from_ip_int x = Ok p -> 0 <= p <= 32.
Proof.
  unfold prefix_from_ip_int, count_righthand_zero_bits, max_prefixlen.
  case_match; [done|]. intros [= <-].
  pose proof (bit_length_nonneg (Z.land (Z.lnot x) (x - 1))).
  case_match; lia.
Qed.

Lemma make_netmask_range m p : make_netmask m = Ok p -> 0 <= p <= 32.
Proof.
  unfold make_netmask, prefix_from_prefix_string, prefix_from_ip_string, max_prefixlen.
  destruct m as [n|s].
  - case_match eqn:Hc; [done|]. intros [= <-].
    apply negb_false_iff, andb_true_iff in Hc. lia.
  - repeat case_match; simplify_eq/=; try done;
      try (intros [= <-]);
      try match goal with
          | H : negb (_ && _) = false |- _ =>
              apply negb_false_iff, andb_true_iff in H; lia
          end.
    all: unfold try_except; repeat case_match; simplify_eq/=; try done;
      intros; simplify_eq; eauto using prefix_from_ip_int_range.
Qed.

Lemma ip_network_Ok text strict net :
  ip_network text strict = Ok net -> IPv4Network_init text strict = Ok net.
Proof.
  unfold ip_network, try_except.
  destruct (IPv4Network_init text strict) as [n|e]; [done|]. by destruct e.
Qed.

(** Whatever text the constructor accepts, the network it builds is
    valid. *)
Lemma IPv4Network_init_valid text strict net :
  IPv4Network_init text strict = Ok net -> valid_network net.
Proof.
  unfold IPv4Network_init.
  destruct (split_addr_prefix text) as [[addr mask]|] eqn:Hsplit; simpl; [|done].
  destruct (ip_int_from_string addr) as [a|] eqn:Ha; simpl; [|done].
  destruct (make_netmask mask) as [p|] eqn:Hp; simpl; [|done].
  intros Hn.
  eapply make_network_valid; eauto using ip_int_from_string_range, make_netmask_range.
Qed.

Lemma ip_network_valid text strict net :
  ip_network text strict = Ok net -> valid_network net.
Proof. intros Hnet%ip_network_Ok. by eapply IPv4Network_init_valid. Qed.

Lemma split_app_sep c s t :
  has_char c s = false ->
  split c (s +:+ String c EmptyString +:+ t) = s :: split c t.
Proof.
  induction s as [|a s IH]; simpl.
  - intros _. by rewrite Ascii.eqb_refl.
  - intros [Ha Hs]%orb_false_iff. rewrite Ha, IH by done. done.
Qed.

Lemma split_no_sep c s : has_char c s = false -> split c s = [s].
Proof.
  induction s as [|a s IH]; simpl; [done|].
  intros [Ha Hs]%orb_false_iff. by rewrite Ha, IH.
Qed.

Lemma octet_text_ok_all : forallb octet_text_ok (seqZ 0 256) = true.
Proof. vm_compute. reflexivity. Qed.

Lemma pretty_octet o : 0 <= o <= 255 ->
  parse_octet (pretty o) = Ok o /\ has_char "." (pretty o) = false.
Proof.
  intros Ho. pose proof octet_text_ok_all as H.
  rewrite forallb_forall in H. specialize (H o).
  unfold octet_text_ok in H.
  destruct (parse_octet (pretty o)) as [v|].
  - apply andb_true_iff in H as [Hv Hd].
    + apply Z.eqb_eq in Hv. apply negb_true_iff in Hd. by subst.
    + apply list_elem_of_In, elem_of_seqZ. lia.
  - discriminate H. apply list_elem_of_In, elem_of_seqZ. lia.
Qed.

Lemma octet_range n i : 0 <= octet n i <= 255.
Proof.
  unfold octet. change (Z.land ?x 255) with (Z.land x (Z.ones 8)).
  rewrite Z.land_ones by lia. change (2 ^ 8) with 256.
  pose proof (Z.mod_pos_bound (Z.shiftr n (8 * i)) 256). lia.
Qed.

Lemma octets_value n : 0 <= n < 2 ^ 32 ->
  from_bytes_big [octet n 3; octet n 2; octet n 1; octet n 0] = n.
Proof.
  intros Hn. unfold from_bytes_big, octet. simpl foldl.
  change 255 with (Z.ones 8). rewrite !Z.land_ones by lia.
  rewrite !Z.shiftr_div_pow2 by lia.
  change (2 ^ (8 * 0)) with 1. change (2 ^ (8 * 1)) with 256.
  change (2 ^ (8 * 2)) with (256 * 256). change (2 ^ (8 * 3)) with (256 * 256 * 256).
  change (2 ^ 8) with 256. change (2 ^ 32) with 4294967296 in Hn.
  rewrite <- !Z.div_div by lia. rewrite Z.div_1_r.
  Z.div_mod_to_equations. lia.
Qed.

Lemma mapM_cons_Ok {A B} (f : A -> result B) x y l ys :
  f x = Ok y -> mapM f l = Ok ys -> mapM f (x :: l) = Ok (y :: ys).
Proof. intros Hx Hl. cbn [mapM]. by rewrite Hx, Hl. Qed.

Lemma str_split n :
  split "." (str n)
  = [pretty (octet n 3); pretty (octet n 2); pretty (octet n 1); pretty (octet n 0)].
Proof.
  unfold str.
  rewrite !split_app_sep by apply pretty_octet, octet_range.
  rewrite split_no_sep by apply pretty_octet, octet_range. done.
Qed.

(** Parsing the dotted quad of an address gives the address back. *)
Lemma str_roundtrip n : 0 <= n < 2 ^ 32 -> ip_int_from_string (str n) = Ok n.
Proof.
  intros Hn. unfold ip_int_from_string.
  pose proof (str_split n) as Hsplit.
  destruct (str n) as [|c s] eqn:Hs; [discriminate Hsplit|].
  rewrite Hsplit. cbn [length Nat.eqb negb].
  assert (Hoctets : mapM parse_octet
            [pretty (octet n 3); pretty (octet n 2); pretty (octet n 1); pretty (octet n 0)]
          = Ok [octet n 3; octet n 2; octet n 1; octet n 0]).
  { repeat (apply mapM_cons_Ok; [apply pretty_octet, octet_range|]). reflexivity. }
  rewrite Hoctets. unfold try_except. cbn [mbind result_bind].
  by rewrite octets_value.
Qed.

Lemma str_inj n m : 0 <= n < 2 ^ 32 -> 0 <= m < 2 ^ 32 -> str n = str m -> n = m.
Proof.
  intros Hn Hm Heq. apply str_roundtrip in Hn, Hm. rewrite Heq in Hn. congruence.
Qed.

Lemma hosts_str_NoDup net : valid_network net -> NoDup (str <$> hosts net).
Proof.
  intros Hv. apply NoDup_fmap_2_strong; [|by apply hosts_NoDup].
  intros x y Hx Hy. apply str_inj; by eapply hosts_range.
Qed.
(** Up to a /30, [hosts()] is the block without its first and last
    address. *)
Lemma hosts_inner net :
  valid_network net -> prefixlen net <= 30 ->
  hosts net = range (network_address net + 1) (broadcast_address net).
Proof.
  intros Hv Hp. unfold hosts, max_prefixlen. repeat case_match; try done; lia.
Qed.

End ipaddress_facts.

(** * The scan coordinator *)

Section CoordinatorFacts.

Context {A : Type}.
Variable probe : A -> result bool.
Variable announce : A -> result unit.
Variable max_workers : Z.

Abbreviation step := (step probe announce max_workers).
Abbreviation exec := (exec probe announce max_workers).
Abbreviation drain := (drain probe announce max_workers).
Abbreviation moves := (moves probe announce max_workers).
Abbreviation reachable := (reachable probe).
Abbreviation collected := (collected probe announce).
Abbreviation well_formed := (well_formed probe announce max_workers).

Implicit Types (hosts : list A) (s : state A) (sched : list event).

Lemma loop_body_spec act ip :
  loop_body probe announce act ip = Ok (if collected ip then act ++ [ip] else act).
Proof.
  unfold loop_body, collected, reachable, announced.
  destruct (probe ip) as [[]|]; simpl; [|done..].
  by destruct (announce ip).
Qed.

Lemma collected_reachable ip : collected ip = true -> probe ip = Ok true.
Proof.
  unfold collected, reachable. intros [Hr _]%andb_true_iff.
  by destruct (probe ip) as [[]|].
Qed.

Lemma collected_announced ip : collected ip = true -> exists u, announce ip = Ok u.
Proof.
  unfold collected, announced. intros [_ Ha]%andb_true_iff.
  destruct (announce ip); [eauto|done].
Qed.

(** When every line can be printed, what is collected is what is
    reachable. *)
Lemma collected_all_announced ip :
  (forall ip', exists u, announce ip' = Ok u) -> collected ip = reachable ip.
Proof.
  intros Hpr. unfold collected, announced. destruct (Hpr ip) as [u ->].
  apply andb_true_r.
Qed.

Lemma filter_collected_all_announced (l : list A) :
  (forall ip, exists u, announce ip = Ok u) ->
  filter (fun ip => collected ip) l = filter (fun ip => reachable ip) l.
Proof.
  intros Hpr. apply list_filter_iff. intros ip.
  by rewrite collected_all_announced.
Qed.

Lemma step_moves s ev s' : step s ev = Some s' -> moves s ev s'.
Proof.
  destruct s as [p q t r f c a fl ph]. unfold step, submit, set_pc; simpl.
  destruct ev.
  - destruct ph; intros [= <-]; constructor; eauto.
  - destruct ph, p; intros [= <-]; constructor.
  - destruct q; [done|]. case_match eqn:Hlt; intros [= <-].
    constructor. by apply Nat.ltb_lt.
  - destruct (r !! i) eqn:Hi; intros [= <-]. by constructor.
  - destruct ph, p; try done. destruct (f !! i) eqn:Hi; [|done].
    destruct fl; [intros [= <-]; by econstructor|].
    rewrite loop_body_spec. intros [= <-]. by constructor.
  - destruct ph, p, q, r, f; intros [= <-]; constructor.
  - destruct ph, q, r; intros [= <-]; constructor.
Qed.

Lemma moves_step s ev s' : moves s ev s' -> step s ev = Some s'.
Proof.
  destruct 1; unfold step, submit, set_pc; simpl.
  - destruct H as [->|[oe ->]]; done.
  - done.
  - apply Nat.ltb_lt in H. by rewrite H.
  - by rewrite H.
  - by rewrite H.
  - by rewrite H, loop_body_spec.
  - done.
  - done.
Qed.

Lemma exec_app s sched1 sched2 :
  exec s (sched1 ++ sched2) = exec s sched1 ≫= fun s' => exec s' sched2.
Proof.
  revert s. induction sched1 as [|ev sched1 IH]; intros s; simpl; [done|].
  destruct (step s ev); simpl; [apply IH | done].
Qed.

(** A property kept by every move that a schedule is allowed to make
    holds all along the schedule. *)
Lemma exec_invariant_on (Q : event -> Prop) (P : state A -> Prop) :
  (forall s ev s', Q ev -> P s -> moves s ev s' -> P s') ->
  forall sched s s', Forall Q sched -> P s -> exec s sched = Some s' -> P s'.
Proof.
  intros Hstep sched. induction sched as [|ev sched IH]; intros s s' HQ HP; simpl.
  - by intros [= <-].
  - apply Forall_cons in HQ as [Hev HQ].
    destruct (step s ev) as [s1|] eqn:Hs1; [|done].
    apply step_moves in Hs1. eauto.
Qed.

Lemma exec_invariant (P : state A -> Prop) :
  (forall s ev s', P s -> moves s ev s' -> P s') ->
  forall sched s s', P s -> exec s sched = Some s' -> P s'.
Proof.
  intros Hstep sched s s'. apply (exec_invariant_on (fun _ => True)); eauto.
  by apply Forall_forall.
Qed.

Lemma conserved_moves hosts s ev s' :
  conserved hosts s -> moves s ev s' -> conserved hosts s'.
Proof.
  unfold conserved. intros Hperm Hmv. destruct Hmv; simpl in *; try done.
  - rewrite Hperm. solve_Permutation.
  - rewrite Hperm. solve_Permutation.
  - rewrite Hperm. generalize (delete_Permutation r i ip H).
    generalize (delete i r). intros d ->. solve_Permutation.
  - rewrite Hperm. generalize (delete_Permutation f i ip H).
    generalize (delete i f). intros d ->. solve_Permutation.
Qed.

Lemma well_formed_moves s ev s' :
  well_formed s -> moves s ev s' -> well_formed s'.
Proof.
  intros (Hact & Hrun & Hthr & Hq & Hpc) Hmv.
  destruct Hmv; unfold well_formed; simpl in *.
  - done.
  - repeat split; try done; case_match; lia.
  - repeat split; try done.
    + rewrite length_app. simpl. lia.
    + intros. lia.
    + destruct ph as [|[]| |]; try done. by destruct Hpc as (? & ? & ?).
  - repeat split; try done.
    + rewrite length_delete by done. lia.
    + destruct ph as [|[]| |]; try done.
      destruct Hpc as (_ & _ & ->). done.
  - done.
  - repeat split; try done.
    rewrite filter_app, Hact, filter_cons, filter_nil.
    destruct (collected ip) eqn:Hip.
    + rewrite decide_True by done; done.
    + rewrite decide_False, app_nil_r; [done|]. by intros [].
  - done.
  - destruct oe; [done|]. repeat split; done.
Qed.

Lemma conserved_init hosts : conserved hosts (init hosts).
Proof. unfold conserved, init; simpl. by rewrite !app_nil_r. Qed.

Lemma well_formed_init hosts : well_formed (init hosts).
Proof. unfold well_formed, init; simpl. repeat split; auto; by intros. Qed.

Lemma exec_conserved hosts sched s :
  exec (init hosts) sched = Some s -> conserved hosts s.
Proof.
  apply (exec_invariant (conserved hosts)); [|apply conserved_init].
  intros ? ? ?. apply conserved_moves.
Qed.

Lemma exec_well_formed hosts sched s :
  exec (init hosts) sched = Some s -> well_formed s.
Proof.
  apply (exec_invariant well_formed); [|apply well_formed_init].
  intros ? ? ?. apply well_formed_moves.
Qed.

Lemma next_move_enabled s ev :
  well_formed s -> 1 <= max_workers -> next_move s = Some ev ->
  exists s', step s ev = Some s' /\ (measure s' < measure s)%nat.
Proof.
  intros (_ & _ & _ & Hq & _) Hmw.
  destruct s as [p q t r f c a fl ph]. unfold next_move, measure; simpl in *.
  destruct ph; try done.
  - destruct p as [|ip p]; [destruct r as [|ip r]; [destruct q as [|ip q];
      [destruct f as [|ip f]|]|]|]; intros [= <-]; unfold step, submit, set_pc; simpl.
    + eexists; split; [done|]. simpl. lia.
    + destruct fl; [eexists; split; [done|]; simpl; lia|].
      rewrite loop_body_spec. eexists; split; [done|]. simpl. lia.
    + assert (1 <= t)%nat as Ht by (apply Hq; done).
      destruct t; [lia|]. eexists; split; [done|]. simpl. lia.
    + eexists; split; [done|]. simpl. rewrite length_app. simpl. lia.
    + eexists; split; [done|]. simpl. rewrite length_app. simpl. lia.
  - destruct r as [|ip r]; [destruct q as [|ip q]|]; intros [= <-];
      unfold step, submit, set_pc; simpl.
    + eexists; split; [done|]. simpl. destruct e; simpl; lia.
    + assert (1 <= t)%nat as Ht by (apply Hq; done).
      destruct t; [lia|]. eexists; split; [done|]. simpl. lia.
    + eexists; split; [done|]. simpl. rewrite length_app. simpl. lia.
Qed.

Lemma next_move_none s :
  well_formed s -> next_move s = None -> pc s = Returned.
Proof.
  intros (_ & _ & _ & _ & Hpc). unfold next_move.
  destruct (pc s) as [|[]| |]; try done; repeat case_match; done.
Qed.

(** From every state the scan can run to its end, and the end is a
    normal return. *)
Lemma drain_returns fuel : forall s,
  well_formed s -> 1 <= max_workers -> (measure s <= fuel)%nat ->
  exists s', exec s (drain fuel s) = Some s' /\ pc s' = Returned.
Proof.
  induction fuel as [|fuel IH]; intros s Hwf Hmw Hfuel; simpl.
  - exists s. split; [done|]. apply next_move_none; [done|].
    destruct Hwf as (_ & _ & _ & _ & Hpc).
    unfold next_move, measure in *. destruct (pc s); try done; lia.
  - destruct (next_move s) as [ev|] eqn:Hev.
    + destruct (next_move_enabled s ev Hwf Hmw Hev) as (s1 & Hs1 & Hlt).
      rewrite Hs1. simpl. rewrite Hs1. apply IH; [|done|lia].
      eapply well_formed_moves; [done|]. by apply step_moves.
    + exists s. split; [done|]. by apply next_move_none.
Qed.

Lemma exec_returns hosts sched s :
  1 <= max_workers -> exec (init hosts) sched = Some s ->
  exists sched' s', exec s sched' = Some s' /\ pc s' = Returned.
Proof.
  intros Hmw Hs. apply exec_well_formed in Hs.
  destruct (drain_returns (measure s) s Hs Hmw (le_n _)) as (s' & Hs' & Hpc).
  eauto.
Qed.


Lemma undisturbed_moves s ev s' :
  ev <> Signal -> undisturbed s -> moves s ev s' -> undisturbed s'.
Proof.
  intros Hev [Hfl Hpc] Hmv. unfold undisturbed.
  destruct Hmv; simpl in *; try done; try (split; [done|]).
  - by left.
  - destruct Hpc as [->|(_ & ? & _)]; [by left|done].
  - destruct Hpc as [->|(_ & _ & -> & _)]; [by left|done].
  - by left.
  - by right.
  - destruct Hpc as [?|(-> & _ & _ & ->)]; [done|by right].
Qed.

Lemma exec_undisturbed hosts sched s :
  Signal ∉ sched -> exec (init hosts) sched = Some s -> undisturbed s.
Proof.
  intros Hsig. apply (exec_invariant_on (fun ev => ev <> Signal) undisturbed).
  - intros ? ? ?. apply undisturbed_moves.
  - apply Forall_forall. intros ev Hev ->. done.
  - split; [done|by left].
Qed.

(** Without a signal, the scan returns the hosts found reachable and
    announced, all of them, in some order. *)
Lemma undisturbed_result hosts sched s :
  Signal ∉ sched -> exec (init hosts) sched = Some s -> pc s = Returned ->
  active s ≡ₚ filter (fun ip => collected ip) hosts.
Proof.
  intros Hsig Hs Hpc.
  destruct (exec_undisturbed _ _ _ Hsig Hs) as [_ [Hin|(Hp & Hq & Hr & Hf)]];
    [congruence|].
  pose proof (exec_conserved _ _ _ Hs) as Hperm.
  destruct (exec_well_formed _ _ _ Hs) as (Hact & _).
  unfold conserved in Hperm. rewrite Hp, Hq, Hr, Hf in Hperm. simpl in Hperm.
  by rewrite Hact, Hperm.
Qed.

Lemma active_sound hosts sched s :
  exec (init hosts) sched = Some s ->
  (NoDup hosts -> NoDup (active s)) /\
  (forall ip, ip ∈ active s -> ip ∈ hosts /\ ip ∈ consumed s /\ probe ip = Ok true).
Proof.
  intros Hs. destruct (exec_well_formed _ _ _ Hs) as (Hact & _).
  pose proof (exec_conserved _ _ _ Hs) as Hperm. unfold conserved in Hperm.
  rewrite Hact. split.
  - intros Hnd. apply NoDup_filter. rewrite Hperm, !app_assoc in Hnd.
    by apply NoDup_app in Hnd as (_ & _ & Hnd).
  - intros ip [Hr Hc]%list_elem_of_filter. split; [|split; [done|]].
    + rewrite Hperm, !elem_of_app. auto.
    + apply collected_reachable. by apply Is_true_true.
Qed.

End CoordinatorFacts.

(** * The claims about address enumeration *)

Section AddressEnumeration.

Import ipaddress ipaddress_facts.

(** C3. For every CIDR text that [ip_network] accepts with a prefix length
    of at most 30, [hosts()] yields exactly [2^(32-prefix) - 2] addresses,
    in ascending order; they are the addresses strictly between the
    network address and the broadcast address, which are both left out. *)
Theorem hosts_of_network_up_to_30 (text : string) (net : IPv4Network) :
  ip_network text false = Ok net ->
  prefixlen net <= 30 ->
  length (hosts net) = Z.to_nat (2 ^ (32 - prefixlen net) - 2) /\
  StronglySorted Z.lt (hosts net) /\
  (network_address net ∉ hosts net) /\
  (broadcast_address net ∉ hosts net) /\
  (forall x, x ∈ hosts net <-> network_address net < x < broadcast_address net).
Proof.
  intros Hparse Hp. pose proof (ip_network_valid _ _ _ Hparse) as Hv.
  pose proof (broadcast_value net Hv) as Hb.
  rewrite (hosts_inner net Hv Hp).
  assert (Hmem : forall x, x ∈ range (network_address net + 1) (broadcast_address net)
                   <-> network_address net < x < broadcast_address net).
  { intros x. unfold range. rewrite elem_of_seqZ. lia. }
  split; [unfold range; rewrite length_seqZ; f_equal; lia|].
  split; [apply range_sorted|].
  split; [rewrite Hmem; lia|].
  split; [rewrite Hmem; lia|].
  exact Hmem.
Qed.

Lemma hosts_of_network_up_to_30_witness :
  ip_network "192.168.1.77/24" false = Ok (mkNetwork 3232235776 24) /\
  prefixlen (mkNetwork 3232235776 24) <= 30 /\
  length (hosts (mkNetwork 3232235776 24))
  = Z.to_nat (2 ^ (32 - prefixlen (mkNetwork 3232235776 24)) - 2).
Proof.
  split; [vm_compute; reflexivity|]. split; [simpl; lia|].
  apply (hosts_of_network_up_to_30 "192.168.1.77/24" (mkNetwork 3232235776 24));
    [vm_compute; reflexivity | simpl; lia].
Defined.

(** C9. A /31 network yields its two addresses and a /32 network its
    single address, so that the enumeration of an accepted network is never
    empty; and with [strict=False] an address with host bits set is
    accepted and replaced by the first address of its block, as for
    192.168.1.5/24, which becomes 192.168.1.0/24. *)
Theorem degenerate_and_unaligned_networks (text : string) (net : IPv4Network) (a p : Z) :
  ip_network text false = Ok net ->
  0 <= a < 2 ^ 32 ->
  0 <= p <= 32 ->
  (prefixlen net = 31 ->
     hosts net = [network_address net; network_address net + 1] /\
     broadcast_address net = network_address net + 1) /\
  (prefixlen net = 32 -> hosts net = [network_address net]) /\
  hosts net <> [] /\
  make_network a p false = Ok (mkNetwork (a - a mod 2 ^ (32 - p)) p) /\
  ip_network "192.168.1.5/24" false = Ok (mkNetwork 3232235776 24).
Proof.
  intros Hparse Ha Hp. pose proof (ip_network_valid _ _ _ Hparse) as Hv.
  pose proof (broadcast_value net Hv) as Hb.
  assert (H31 : prefixlen net = 31 ->
     hosts net = [network_address net; network_address net + 1] /\
     broadcast_address net = network_address net + 1).
  { intros Hp31. rewrite Hp31 in Hb. change (2 ^ (32 - 31)) with 2 in Hb.
    split; [|lia]. unfold hosts, range, max_prefixlen. rewrite Hp31. simpl.
    replace (broadcast_address net + 1 - network_address net) with 2 by lia.
    rewrite seqZ_cons by lia. rewrite seqZ_cons by (simpl; lia).
    rewrite seqZ_nil by (simpl; lia). repeat f_equal; lia. }
  assert (H32 : prefixlen net = 32 -> hosts net = [network_address net]).
  { intros Hp32. unfold hosts, max_prefixlen. by rewrite Hp32. }
  split; [done|]. split; [done|]. split; [|split].
  - destruct (decide (prefixlen net = 31)) as [E|N31]; [by rewrite (proj1 (H31 E))|].
    destruct (decide (prefixlen net = 32)) as [E|N32]; [by rewrite (H32 E)|].
    assert (Hle : prefixlen net <= 30) by (destruct Hv as (Hpr & _); lia).
    rewrite (hosts_inner net Hv Hle).
    assert (4 <= 2 ^ (32 - prefixlen net)).
    { destruct Hv as (Hpr & _). change 4 with (2 ^ 2). apply Z.pow_le_mono_r; lia. }
    unfold range. rewrite seqZ_cons by lia. done.
  - rewrite make_network_nonstrict. by rewrite land_netmask.
  - vm_compute. reflexivity.
Qed.

Lemma degenerate_and_unaligned_networks_witness :
  ip_network "10.0.0.1/31" false = Ok (mkNetwork 167772160 31) /\
  hosts (mkNetwork 167772160 31) = [167772160; 167772161] /\
  ip_network "10.0.0.9/32" false = Ok (mkNetwork 167772169 32) /\
  hosts (mkNetwork 167772169 32) = [167772169] /\
  make_network 3232235781 24 false = Ok (mkNetwork 3232235776 24).
Proof.
  split; [vm_compute; reflexivity|]. split.
  { apply (degenerate_and_unaligned_networks "10.0.0.1/31" (mkNetwork 167772160 31) 0 0);
      [vm_compute; reflexivity | lia | lia | reflexivity]. }
  split; [vm_compute; reflexivity|]. split.
  { apply (degenerate_and_unaligned_networks "10.0.0.9/32" (mkNetwork 167772169 32) 0 0);
      [vm_compute; reflexivity | lia | lia | reflexivity]. }
  apply (degenerate_and_unaligned_networks "10.0.0.1/31" (mkNetwork 167772160 31)
           3232235781 24); [vm_compute; reflexivity | lia | lia].
Defined.

End AddressEnumeration.

(** * The claims about the scan *)

(** C1. With a worker limit between 1 and 200, whatever the addresses and
    whatever the schedule, the probes being run at any instant are at most
    [max_workers] many. *)
Theorem in_flight_bounded {A : Type} (probe : A -> result bool)
    (announce : A -> result unit) (max_workers : Z)
    (hosts : list A) (sched : list event) (s : state A) :
  1 <= max_workers <= 200 ->
  exec probe announce max_workers (init hosts) sched = Some s ->
  Z.of_nat (length (running s)) <= max_workers.
Proof.
  intros Hmw Hs.
  destruct (exec_well_formed _ _ _ _ _ _ Hs) as (_ & Hrun & Hthr & _).
  destruct Hthr as [Hzero|Hle]; lia.
Qed.

Lemma in_flight_bounded_witness :
  1 <= 2 <= 200 /\
  exec (ping_host linux_all_up) (print_active linux_all_up) 2
       (init ["10.0.0.1"; "10.0.0.2"; "10.0.0.3"])
       [Submit; Submit; Submit; Start; Start]
  = Some (mkState [] ["10.0.0.3"] 2 ["10.0.0.1"; "10.0.0.2"] [] [] [] false InBlock) /\
  Z.of_nat (length (running
     (mkState [] ["10.0.0.3"] 2 ["10.0.0.1"; "10.0.0.2"] [] [] [] false InBlock))) <= 2.
Proof.
  split; [lia|]. split; [vm_compute; reflexivity|].
  apply (in_flight_bounded (ping_host linux_all_up) (print_active linux_all_up) 2
           ["10.0.0.1"; "10.0.0.2"; "10.0.0.3"] [Submit; Submit; Submit; Start; Start]);
    [lia | vm_compute; reflexivity].
Defined.




(** C4. [ping_host] never raises: it returns [True] exactly when the ping
    utility exits with status 0, and [False] on a timeout or on any other
    exception. And whatever the submitted probe does, raising included,
    the scan never ends in an exception: only addresses whose probe
    returned [True] are reported, and every run can be continued to a
    normal return. *)
Theorem probe_failures_absorbed (w : world) (ip : string)
    (probe : string -> result bool) (announce : string -> result unit)
    (max_workers : Z) (hosts : list string)
    (sched : list event) (s : state string) :
  1 <= max_workers ->
  exec probe announce max_workers (init hosts) sched = Some s ->
  (exists b, ping_host w ip = Ok b /\
     (b = true <->
      subprocess_run w (platform_ping_command w ip) (PING_TIMEOUT_SEC + 1) = Ok 0)) /\
  (forall e, pc s <> Raised e /\ pc s <> Leaving (Some e)) /\
  (forall a, a ∈ active s -> probe a = Ok true) /\
  (exists sched' s',
     run_pool probe announce max_workers hosts (sched ++ sched') = Some (Ok (active s'), s')).
Proof.
  intros Hmw Hs. split; [|split; [|split]].
  - unfold ping_host, try_except.
    destruct (subprocess_run w _ _) as [rc|e] eqn:Hrun; simpl.
    + exists (rc =? 0). split; [done|]. rewrite Z.eqb_eq. split; congruence.
    + exists false. split; [by destruct e|]. split; congruence.
  - intros e. destruct (exec_well_formed _ _ _ _ _ _ Hs) as (_ & _ & _ & _ & Hpc).
    split; intros Heq; by rewrite Heq in Hpc.
  - intros a Ha. by apply (active_sound _ _ _ _ _ _ Hs).
  - destruct (exec_returns _ _ _ _ _ _ Hmw Hs) as (sched' & s' & Hs' & Hpc).
    exists sched', s'. unfold run_pool. rewrite exec_app, Hs. simpl.
    by rewrite Hs', Hpc.
Qed.

Lemma probe_failures_absorbed_witness :
  1 <= 2 /\
  ping_host linux_one_up "192.168.1.2" = Ok false /\
  run_pool (ping_host linux_one_up) (print_active linux_one_up) 2 ["192.168.1.1"; "192.168.1.2"]
    [Submit; Submit; Start; Start; Finish 1; Finish 0; Yield 0; Yield 0; Exhaust; Join]
  = Some (Ok ["192.168.1.1"],
          mkState [] [] 2 [] [] ["192.168.1.2"; "192.168.1.1"] ["192.168.1.1"]
                  false Returned) /\
  forall a, a ∈ ["192.168.1.1"] -> ping_host linux_one_up a = Ok true.
Proof.
  split; [lia|]. split; [vm_compute; reflexivity|]. split; [vm_compute; reflexivity|].
  apply (probe_failures_absorbed linux_one_up "192.168.1.2"
           (ping_host linux_one_up) (print_active linux_one_up) 2
           ["192.168.1.1"; "192.168.1.2"]
           [Submit; Submit; Start; Start; Finish 1; Finish 0; Yield 0; Yield 0; Exhaust; Join]
           (mkState [] [] 2 [] [] ["192.168.1.2"; "192.168.1.1"] ["192.168.1.1"]
                    false Returned));
    [lia | vm_compute; reflexivity].
Defined.

(** C5. Two runs of the scan over the same addresses with the same probe
    and the same standard output, neither of them disturbed by a signal,
    return the same addresses: the two lists are permutations of each
    other, hence equal as sets, both being the hosts found reachable whose
    line the loop could print, which are all the reachable hosts when
    every line can be printed. *)
Theorem scan_idempotent {A : Type} (probe : A -> result bool)
    (announce : A -> result unit) (max_workers : Z)
    (hosts : list A) (sched1 sched2 : list event) (r1 r2 : result (list A))
    (s1 s2 : state A) :
  Signal ∉ sched1 ->
  Signal ∉ sched2 ->
  run_pool probe announce max_workers hosts sched1 = Some (r1, s1) ->
  run_pool probe announce max_workers hosts sched2 = Some (r2, s2) ->
  exists l1 l2,
    r1 = Ok l1 /\ r2 = Ok l2 /\ l1 ≡ₚ l2 /\
    (forall ip, ip ∈ l1 <-> ip ∈ l2) /\
    l1 ≡ₚ filter (fun ip => collected probe announce ip) hosts /\
    ((forall ip, exists u, announce ip = Ok u) ->
     l1 ≡ₚ filter (fun ip => reachable probe ip) hosts).
Proof.
  assert (Hrun : forall sched r s, Signal ∉ sched ->
            run_pool probe announce max_workers hosts sched = Some (r, s) ->
            exists l, r = Ok l /\
                      l ≡ₚ filter (fun ip => collected probe announce ip) hosts).
  { intros sched r s Hsig. unfold run_pool.
    destruct (exec probe announce max_workers (init hosts) sched) as [s'|] eqn:Hs; [|done].
    destruct (pc s') eqn:Hpc; try done.
    - intros [= <- <-]. eexists; split; [done|]. by eapply undisturbed_result.
    - destruct (exec_well_formed _ _ _ _ _ _ Hs) as (_ & _ & _ & _ & Hph).
      by rewrite Hpc in Hph. }
  intros Hsig1 Hsig2 Hr1 Hr2.
  destruct (Hrun _ _ _ Hsig1 Hr1) as (l1 & -> & Hl1).
  destruct (Hrun _ _ _ Hsig2 Hr2) as (l2 & -> & Hl2).
  exists l1, l2. split; [done|]. split; [done|].
  assert (Hperm : l1 ≡ₚ l2) by (by rewrite Hl1, Hl2).
  split; [done|]. split; [intros ip; by rewrite Hperm|]. split; [done|].
  intros Hpr. by rewrite Hl1, filter_collected_all_announced.
Qed.

Ltac no_signal :=
  let H := fresh in
  intros H; repeat (apply elem_of_cons in H as [H|H]; [discriminate H|]);
  by apply elem_of_nil in H.

Lemma scan_idempotent_witness :
  exists l1 l2,
    Ok ["192.168.1.1"; "192.168.1.2"] = Ok l1 /\
    Ok ["192.168.1.2"; "192.168.1.1"] = Ok l2 /\ l1 ≡ₚ l2 /\
    (forall ip, ip ∈ l1 <-> ip ∈ l2) /\
    l1 ≡ₚ filter (fun ip => collected (ping_host linux_all_up)
                                      (print_active linux_all_up) ip)
           ["192.168.1.1"; "192.168.1.2"] /\
    ((forall ip, exists u, print_active linux_all_up ip = Ok u) ->
     l1 ≡ₚ filter (fun ip => reachable (ping_host linux_all_up) ip)
            ["192.168.1.1"; "192.168.1.2"]).
Proof.
  apply (scan_idempotent (ping_host linux_all_up) (print_active linux_all_up) 2
           ["192.168.1.1"; "192.168.1.2"]
           [Submit; Submit; Start; Start; Finish 0; Finish 0; Yield 0; Yield 0; Exhaust; Join]
           [Submit; Submit; Start; Start; Finish 1; Finish 0; Yield 0; Yield 0; Exhaust; Join]
           _ _
           (mkState [] [] 2 [] [] ["192.168.1.1"; "192.168.1.2"]
                    ["192.168.1.1"; "192.168.1.2"] false Returned)
           (mkState [] [] 2 [] [] ["192.168.1.2"; "192.168.1.1"]
                    ["192.168.1.2"; "192.168.1.1"] false Returned));
    [ no_signal | no_signal | vm_compute; reflexivity | vm_compute; reflexivity ].
Defined.

(** C10. For every valid network, every probe and every schedule, the
    list that the scan returns has no duplicates, and each of its
    addresses is a host address of the network, one that was probed and
    whose probe returned [True]. *)
Theorem reachable_list_sound (probe : string -> result bool)
    (announce : string -> result unit) (max_workers : Z)
    (net : ipaddress.IPv4Network) (sched : list event) (r : list string)
    (s : state string) :
  valid_network net ->
  run_pool probe announce max_workers (ipaddress.str <$> ipaddress.hosts net) sched
  = Some (Ok r, s) ->
  NoDup r /\
  (forall ip, ip ∈ r ->
     ip ∈ ipaddress.str <$> ipaddress.hosts net /\
     ip ∈ probed s /\
     probe ip = Ok true).
Proof.
  intros Hv. unfold run_pool.
  destruct (exec probe announce max_workers _ sched) as [s'|] eqn:Hs; [|done].
  destruct (pc s'); try done. intros [= <- <-].
  destruct (active_sound _ _ _ _ _ _ Hs) as [Hnd Hin]. split.
  - apply Hnd. by apply ipaddress_facts.hosts_str_NoDup.
  - intros ip Hip. destruct (Hin ip Hip) as (H1 & H2 & H3).
    split; [done|]. split; [|done]. unfold probed. rewrite elem_of_app. by left.
Qed.

Lemma reachable_list_sound_witness :
  valid_network (ipaddress.mkNetwork 3232235776 30) /\
  run_pool (ping_host linux_one_up) (print_active linux_one_up) 1
    (ipaddress.str <$> ipaddress.hosts (ipaddress.mkNetwork 3232235776 30))
    [Submit; Submit; Start; Finish 0; Start; Finish 0; Yield 1; Yield 0; Exhaust; Join]
  = Some (Ok ["192.168.1.1"],
          mkState [] [] 1 [] [] ["192.168.1.2"; "192.168.1.1"] ["192.168.1.1"]
                  false Returned) /\
  NoDup ["192.168.1.1"].
Proof.
  assert (Hv : valid_network (ipaddress.mkNetwork 3232235776 30)).
  { unfold valid_network; simpl. split; [lia|]. split; [lia|].
    vm_compute. reflexivity. }
  split; [exact Hv|]. split; [vm_compute; reflexivity|].
  apply (reachable_list_sound (ping_host linux_one_up) (print_active linux_one_up) 1
           (ipaddress.mkNetwork 3232235776 30)
           [Submit; Submit; Start; Finish 0; Start; Finish 0; Yield 1; Yield 0; Exhaust; Join]
           ["192.168.1.1"]
           (mkState [] [] 1 [] [] ["192.168.1.2"; "192.168.1.1"] ["192.168.1.1"]
                    false Returned));
    [exact Hv | vm_compute; reflexivity].
Defined.

(** * Saving the results *)

Section FilesFacts.

Variable w : world.

Lemma append_assoc (s1 s2 s3 : string) : (s1 +:+ s2) +:+ s3 = s1 +:+ (s2 +:+ s3).
Proof.
  induction s1 as [|c s1 IH]; [done|].
  change (String c ((s1 +:+ s2) +:+ s3) = String c (s1 +:+ (s2 +:+ s3))).
  by rewrite IH.
Qed.

Lemma join_lines_unlines hosts :
  join_lines hosts +:+ (match hosts with [] => "" | _ => newline end) = unlines hosts.
Proof.
  unfold join_lines. induction hosts as [|h hosts IH]; [done|].
  destruct hosts as [|h' hosts]; [done|].
  change (String.concat newline (h :: h' :: hosts))
    with (h +:+ newline +:+ String.concat newline (h' :: hosts)).
  change (unlines (h :: h' :: hosts)) with (h +:+ newline +:+ unlines (h' :: hosts)).
  rewrite <- IH. by rewrite !append_assoc.
Qed.

(** The report is a header line, a timestamp line, and a line for each
    host. *)
Lemma report_lines hosts :
  report w hosts
  = unlines ("Scan results - host discovery"
             :: ("Timestamp (UTC): " +:+ utcnow_isoformat w +:+ "Z")
             :: hosts).
Proof.
  unfold report. rewrite join_lines_unlines. unfold unlines at 2. simpl foldr.
  fold (unlines hosts). by rewrite !append_assoc.
Qed.

Lemma os_open_creat (fs : gmap string file) path mode :
  open_fault w = None ->
  os_open w fs path [O_WRONLY; O_CREAT; O_TRUNC] mode
  = Ok (<[path := mkFile (match fs !! path with
                          | Some old => st_mode old
                          | None => Z.land mode (Z.lnot (umask w))
                          end) ""]> fs).
Proof. intros Hopen. unfold os_open. rewrite Hopen. by destruct (fs !! path). Qed.

(** [save_results_securely] raises nothing but the [OSError] of a failed
    system call. *)
Lemma save_raises_OSError hosts filename fs e fs' :
  save_results_securely w hosts filename fs = (Raise e, fs') ->
  exists errno, e = OSError errno.
Proof.
  unfold save_results_securely, os_open, write_and_close.
  destruct (open_fault w); [intros [= <- <-]; eauto|].
  assert (Hw : forall fs1 path,
    match (match write_fault w with
           | Some (errno, n) =>
               (Raise (OSError errno),
                alter (append_contents (String.substring 0 n (report w hosts))) path fs1)
           | None => (Ok (), alter (append_contents (report w hosts)) path fs1)
           end) with
    | (Ok _, fs2) => (Ok path, fs2)
    | (Raise e0, fs2) => (Raise e0, snd (os_remove w fs2 path))
    end = (Raise e, fs') -> exists errno, e = OSError errno).
  { intros fs1 path. destruct (write_fault w) as [[errno n]|]; [|done].
    intros [= <- <-]. eauto. }
  destruct (fs !! _); simpl; apply Hw.
Qed.

End FilesFacts.

(** C7 fails on a file that is already there. [os.open] is given the
    flags [O_WRONLY | O_CREAT | O_TRUNC] and the mode [0o600], and the
    mode counts only when the call creates the file. A file found at the
    target is emptied and rewritten: the save succeeds, the file then
    holds the report the claim describes, and its permission bits are the
    ones it had before, which may let group and others in. *)
Theorem existing_file_keeps_its_mode (w : world) (hosts : list string)
    (filename : option string) (fs : gmap string file) (old : file) :
  open_fault w = None ->
  write_fault w = None ->
  fs !! target w filename = Some old ->
  exists fs' f,
    save_results_securely w hosts filename fs = (Ok (target w filename), fs') /\
    fs' !! target w filename = Some f /\
    contents f = unlines ("Scan results - host discovery"
                          :: ("Timestamp (UTC): " +:+ utcnow_isoformat w +:+ "Z")
                          :: hosts) /\
    st_mode f = st_mode old.
Proof.
  intros Hopen Hwrite Hold.
  set (path := target w filename) in *.
  exists (<[path := mkFile (st_mode old) (report w hosts)]> fs),
    (mkFile (st_mode old) (report w hosts)).
  split; [|split; [apply lookup_insert_eq|split; [apply report_lines|done]]].
  unfold save_results_securely. fold (target w filename). fold path.
  rewrite (os_open_creat w fs path) by done. rewrite Hold.
  unfold write_and_close. rewrite Hwrite. f_equal.
  by rewrite alter_insert_eq.
Qed.

Lemma existing_file_keeps_its_mode_witness :
  Z.land 420 (Z.lnot SAVE_FILE_MODE) = 36 /\
  exists fs' f,
    save_results_securely linux_all_up ["192.168.1.1"] None
      {["/tmp/scan_20260101T000000Z.txt" := mkFile 420 "earlier results"]}
    = (Ok "/tmp/scan_20260101T000000Z.txt", fs') /\
    fs' !! "/tmp/scan_20260101T000000Z.txt" = Some f /\
    contents f = unlines ["Scan results - host discovery";
                          "Timestamp (UTC): 2026-01-01T00:00:00Z";
                          "192.168.1.1"] /\
    st_mode f = 420.
Proof.
  split; [reflexivity|].
  apply (existing_file_keeps_its_mode linux_all_up ["192.168.1.1"] None
           {["/tmp/scan_20260101T000000Z.txt" := mkFile 420 "earlier results"]}
           (mkFile 420 "earlier results"));
    [reflexivity | reflexivity | vm_compute; reflexivity].
Defined.

Section MainFacts.

Variable ip_network : string -> bool -> result ipaddress.IPv4Network.
Variable w : world.

Lemma isascii_app s t : isascii (s +:+ t) = isascii s && isascii t.
Proof.
  induction s as [|c s IH]; [done|].
  change (isascii (String c (s +:+ t)) = isascii (String c s) && isascii t).
  simpl. by rewrite IH, andb_assoc.
Qed.

Lemma isascii_pretty_N_char (x : N) :
  (Ascii.nat_of_ascii (pretty_N_char x) <? 128)%nat = true.
Proof. unfold pretty_N_char. by repeat case_match. Qed.

Lemma isascii_pretty_N_go (x : N) :
  forall s, isascii s = true -> isascii (pretty_N_go x s) = true.
Proof.
  induction (N.lt_wf_0 x) as [x _ IH]. intros s Hs.
  destruct (decide (x = 0%N)) as [->|Hx]; [by rewrite pretty_N_go_0|].
  rewrite pretty_N_go_step by lia. apply IH.
  - apply N.div_lt; lia.
  - cbn [isascii]. by rewrite isascii_pretty_N_char, Hs.
Qed.

(** [str(len(hosts))] is plain ASCII. *)
Lemma isascii_pretty_nat (n : nat) : isascii (pretty n) = true.
Proof.
  unfold pretty, pretty_nat, pretty, pretty_N.
  case_decide; [done|]. by apply isascii_pretty_N_go.
Qed.

Lemma print_isascii text : isascii text = true -> print w text = Ok ().
Proof. intros H. unfold print. by rewrite H. Qed.

(** A [print] raises nothing but [UnicodeEncodeError]. *)
Lemma print_raises text e :
  print w text = Raise e -> exists msg, e = UnicodeEncodeError msg.
Proof.
  unfold print. destruct (isascii text); [done|].
  destruct (stdout_rejects w text); [intros [= <-]; eauto|done].
Qed.

Lemma print_total hosts : print w (total_message hosts) = Ok ().
Proof.
  apply print_isascii. unfold total_message.
  by rewrite isascii_app, isascii_pretty_nat.
Qed.

Lemma print_and_exit_cases printed n :
  (print_and_exit printed n = n /\ exists u, printed = Ok u) \/
  (print_and_exit printed n = 1 /\ exists e, printed = Raise e).
Proof. destruct printed; simpl; eauto. Qed.

Lemma main_except_cases e : main_except w e = 1 \/ main_except w e = 2.
Proof.
  unfold main_except. destruct (str_of_ValueError e).
  - destruct (print_and_exit_cases (print w (value_error_message s)) 2)
      as [[-> _]|[-> _]]; auto.
  - destruct (print_and_exit_cases (print w unexpected_message) 1)
      as [[-> _]|[-> _]]; auto.
Qed.

(** An exception that is not a [ValueError] ends the run with status 1,
    whether or not the message of the handler can be printed. *)
Lemma main_except_other e : is_ValueError e = false -> main_except w e = 1.
Proof.
  intros He. unfold main_except.
  destruct e; try discriminate He; simpl; by destruct (print w unexpected_message).
Qed.

Lemma run_pool_ok {A} (probe : A -> result bool) (announce : A -> result unit) mw
    (hosts : list A) sched r s :
  run_pool probe announce mw hosts sched = Some (r, s) ->
  exec probe announce mw (init hosts) sched = Some s /\
  r = Ok (active s) /\ pc s = Returned.
Proof.
  unfold run_pool.
  destruct (exec probe announce mw (init hosts) sched) as [s'|] eqn:Hs; [|done].
  destruct (pc s') eqn:Hpc; try done.
  - by intros [= <- <-].
  - destruct (exec_well_formed _ _ _ _ _ _ Hs) as (_ & _ & _ & _ & Hph).
    by rewrite Hpc in Hph.
Qed.

(** What a scan that ends on an accepted network has done. *)
Lemma scan_network_run cidr mw sched net sc :
  ip_network cidr false = Ok net -> 1 <= mw ->
  scan_network ip_network w cidr mw sched = Some sc ->
  exists s,
    exec (ping_host w) (print_active w) mw
         (init (ipaddress.str <$> ipaddress.hosts net)) sched = Some s /\
    pc s = Returned /\
    sc = mkScanOutcome (Ok (active s)) (probed s).
Proof.
  intros Hnet Hmw. unfold scan_network. rewrite Hnet. simpl.
  destruct (Z.leb_spec mw 0); [lia|].
  destruct (run_pool _ _ _ _ _) as [[r s]|] eqn:Hrun; simpl; [|done].
  intros [= <-]. apply run_pool_ok in Hrun as (Hs & -> & Hpc). eauto.
Qed.

(** On a network text that parses and with at least one worker, a scan that
    runs to its end returns a list. *)
Lemma scan_network_ok cidr mw sched sc net :
  ip_network cidr false = Ok net -> 1 <= mw ->
  scan_network ip_network w cidr mw sched = Some sc ->
  exists hs, scan_result sc = Ok hs.
Proof.
  intros Hnet Hmw Hsc.
  destruct (scan_network_run _ _ _ _ _ Hnet Hmw Hsc) as (s & _ & _ & ->). eauto.
Qed.

Lemma scan_network_invalid cidr mw sched e :
  ip_network cidr false = Raise e ->
  scan_network ip_network w cidr mw sched
  = Some (mkScanOutcome
            (Raise (if is_ValueError e
                    then ValueError "Invalid network format. Use e.g. 192.168.1.0/24"
                    else e)) []).
Proof. intros He. unfold scan_network. rewrite He. simpl. by destruct (is_ValueError e). Qed.

(** A scan that returns a list ran on a network that the parser
    accepted. *)
Lemma scan_network_returns cidr mw sched sc hs :
  scan_network ip_network w cidr mw sched = Some sc ->
  scan_result sc = Ok hs ->
  exists net, ip_network cidr false = Ok net /\ 1 <= mw.
Proof.
  unfold scan_network.
  destruct (ip_network cidr false) as [net|e] eqn:Hnet; simpl.
  - destruct (Z.leb_spec mw 0); [by intros [= <-]|]. intros _ _. exists net.
    split; [done|lia].
  - destruct (is_ValueError e); by intros [= <-].
Qed.

(** [main] past the two tests of its arguments. *)
Lemma main_validated a fs sched :
  confirm_legal a = true ->
  1 <= arg_max_workers a <= 200 ->
  main ip_network w a fs sched
  = '(r, probed, fs') ← main_try ip_network w a fs sched;
    Some (mkOutcome (match r with Ok _ => 0 | Raise e => main_except w e end)
                    probed fs').
Proof.
  intros Hconfirm Hmw. unfold main. rewrite Hconfirm. simpl.
  destruct (Z.ltb_spec (arg_max_workers a) 1); [lia|].
  destruct (Z.ltb_spec 200 (arg_max_workers a)); [lia|]. done.
Qed.

(** The [try] block once the first line is printed, on a network text
    that parses: the scan returns a list, the two lines that follow are
    printed, and the list is saved if that was asked for. *)
Lemma main_try_run a fs sched net r probed' fs' :
  print w (scanning_message a) = Ok () ->
  ip_network (network a) false = Ok net ->
  1 <= arg_max_workers a ->
  main_try ip_network w a fs sched = Some (r, probed', fs') ->
  exists s,
    scan_network ip_network w (network a) (arg_max_workers a) sched
    = Some (mkScanOutcome (Ok (active s)) (probed s)) /\
    exec (ping_host w) (print_active w) (arg_max_workers a)
         (init (ipaddress.str <$> ipaddress.hosts net)) sched = Some s /\
    pc s = Returned /\
    probed' = probed s /\
    if save a then
      exists saved,
        save_results_securely w (active s) None fs = (saved, fs') /\
        r = (path ← saved; print w (saved_message path))
    else r = Ok () /\ fs' = fs.
Proof.
  intros Hprint Hnet Hmw. unfold main_try. rewrite Hprint.
  destruct (scan_network _ _ _ _ _) as [sc|] eqn:Hsc; [|done].
  destruct (scan_network_run _ _ _ _ _ Hnet Hmw Hsc) as (s & Hs & Hpc & ->).
  cbn [mbind option_bind scan_result scan_probed].
  rewrite (print_isascii completed_message) by done.
  cbn [mbind result_bind]. rewrite print_total.
  intros Hout. exists s. split; [done|]. split; [done|]. split; [done|].
  destruct (save a).
  - destruct (save_results_securely w (active s) None fs) as [[path|e] fs1] eqn:Hsave;
      injection Hout as <- <- <-; split; eauto.
  - by injection Hout as <- <- <-.
Qed.

(** A [try] block that ends without an exception has run the scan, which
    returned a list, and has saved it if that was asked for. *)
Lemma main_try_returns a fs sched u probed' fs' :
  main_try ip_network w a fs sched = Some (Ok u, probed', fs') ->
  exists sc hs,
    scan_network ip_network w (network a) (arg_max_workers a) sched = Some sc /\
    scan_result sc = Ok hs /\
    probed' = scan_probed sc /\
    if save a then exists path, save_results_securely w hs None fs = (Ok path, fs')
    else fs' = fs.
Proof.
  unfold main_try. destruct (print w (scanning_message a)); [|done].
  destruct (scan_network _ _ _ _ _) as [sc|] eqn:Hsc; [|done].
  cbn [mbind option_bind]. destruct (scan_result sc) as [hs|] eqn:Hhs; [|done].
  destruct (_ ← print w completed_message; print w (total_message hs)); [|done].
  intros Hout. exists sc, hs. split; [done|]. split; [done|].
  destruct (save a).
  - destruct (save_results_securely w hs None fs) as [[path|e] fs1] eqn:Hsave; [|done].
    injection Hout as _ <- <-. eauto.
  - by injection Hout as <- <-.
Qed.

(** The ways for [main] to end with status 0. *)
Lemma main_exit_0 a fs sched out :
  main ip_network w a fs sched = Some out ->
  exit_status out = 0 ->
  confirm_legal a = true /\ 1 <= arg_max_workers a <= 200 /\
  exists sc hs,
    scan_network ip_network w (network a) (arg_max_workers a) sched = Some sc /\
    scan_result sc = Ok hs /\
    out_probed out = scan_probed sc /\
    if save a then exists path, save_results_securely w hs None fs = (Ok path, out_files out)
    else out_files out = fs.
Proof.
  unfold main. destruct (confirm_legal a); simpl.
  2: { intros [= <-]. simpl.
       destruct (print_and_exit_cases (_ ← print w confirm_notice; print w confirm_hint) 2)
         as [[-> _]|[-> _]]; done. }
  destruct (Z.ltb_spec (arg_max_workers a) 1); simpl.
  { intros [= <-]. simpl.
    destruct (print_and_exit_cases (print w workers_notice) 2) as [[-> _]|[-> _]]; done. }
  destruct (Z.ltb_spec 200 (arg_max_workers a)); simpl.
  { intros [= <-]. simpl.
    destruct (print_and_exit_cases (print w workers_notice) 2) as [[-> _]|[-> _]]; done. }
  destruct (main_try _ _ _ _ _) as [[[r probed'] fs']|] eqn:Htry; simpl; [|done].
  intros [= <-]. simpl. destruct r as [u|e].
  - intros _. split; [done|]. split; [lia|]. by eapply main_try_returns.
  - destruct (main_except_cases e) as [-> | ->]; done.
Qed.

End MainFacts.

(** C8, as the specification states it, fails when the removal fails as
    well. On a machine whose disk is full and whose temporary directory
    holds, under the name of the results file, a file that this user may
    write to and may not remove: [os.open] empties the file, ten
    characters of the report reach it before the write fails, [os.remove]
    fails in turn and its exception is discarded. The save re-raises the
    error of the write, [main] exits with status 1, and the partly written
    file is left in place. *)
Lemma partial_file_left_in_place :
  let fs : gmap string file :=
    {["/tmp/scan_20260101T000000Z.txt" := mkFile 438 "earlier results"]} in
  let fs' : gmap string file :=
    {["/tmp/scan_20260101T000000Z.txt" := mkFile 438 "Scan resul"]} in
  save_results_securely linux_disk_full_sticky ["192.168.1.1"; "192.168.1.2"] None fs
  = (Raise (OSError ENOSPC), fs') /\
  main ipaddress.ip_network linux_disk_full_sticky (mkArgs "192.168.1.0/30" true true 30)
       fs (sequential 2)
  = Some (mkOutcome 1 ["192.168.1.1"; "192.168.1.2"] fs') /\
  fs' !! "/tmp/scan_20260101T000000Z.txt" = Some (mkFile 438 "Scan resul").
Proof. intros fs fs'. repeat split; vm_compute; reflexivity. Qed.

(** C8, amended. When the write fails, the save tries to remove the file
    and discards the exception of a removal that fails: the name of the
    file is gone when the removal succeeds, and the file stays, holding
    what had been written, when it does not. Either way the save re-raises
    the error of the write, and [main], once it has got as far as the
    scan, exits with status 1. *)
Theorem failed_write_cleanup
    (ip_network : string -> bool -> result ipaddress.IPv4Network) (w : world)
    (a : args) (hosts : list string) (filename : option string)
    (fs : gmap string file) (sched : list event) (out : outcome)
    (errno : Z) (n : nat) :
  open_fault w = None ->
  write_fault w = Some (errno, n) ->
  (exists fs',
     save_results_securely w hosts filename fs = (Raise (OSError errno), fs') /\
     (remove_fault w = None -> fs' !! target w filename = None) /\
     (forall errno', remove_fault w = Some errno' ->
        exists f, fs' !! target w filename = Some f /\
                  contents f = String.substring 0 n (report w hosts))) /\
  (confirm_legal a = true ->
   1 <= arg_max_workers a <= 200 ->
   print w (scanning_message a) = Ok () ->
   (exists net, ip_network (network a) false = Ok net) ->
   save a = true ->
   main ip_network w a fs sched = Some out ->
   exit_status out = 1 /\
   (remove_fault w = None -> out_files out !! target w None = None)).
Proof.
  intros Hopen Hwrite.
  assert (Hsave : forall hs fname, exists fs',
     save_results_securely w hs fname fs = (Raise (OSError errno), fs') /\
     (remove_fault w = None -> fs' !! target w fname = None) /\
     (forall errno', remove_fault w = Some errno' ->
        exists f, fs' !! target w fname = Some f /\
                  contents f = String.substring 0 n (report w hs))).
  { intros hs fname. unfold save_results_securely. fold (target w fname).
    set (path := target w fname).
    rewrite (os_open_creat w fs path) by done.
    unfold write_and_close. rewrite Hwrite. unfold os_remove.
    rewrite alter_insert_eq. simpl.
    destruct (remove_fault w) as [errno'|]; simpl.
    - eexists. split; [done|]. split; [done|]. intros _ _.
      eexists. split; [apply lookup_insert_eq|done].
    - rewrite lookup_insert_eq. simpl.
      eexists. split; [done|]. split; [|done]. intros _. apply lookup_delete_eq. }
  split; [apply Hsave|].
  intros Hconfirm Hmw Hprint [net Hnet] Hsv.
  rewrite (main_validated _ _ _ _ _ Hconfirm Hmw).
  destruct (main_try _ _ _ _ _) as [[[r probed'] fs']|] eqn:Htry; simpl; [|done].
  destruct (main_try_run _ _ _ _ _ _ _ _ _ Hprint Hnet (proj1 Hmw) Htry)
    as (s & _ & _ & _ & _ & Hsaved).
  rewrite Hsv in Hsaved. destruct Hsaved as (saved & Hsaved & ->).
  destruct (Hsave (active s) None) as (fs1 & Hfs1 & Hgone & _).
  rewrite Hfs1 in Hsaved. injection Hsaved as <- <-.
  intros [= <-]. simpl. split; [|done]. by apply main_except_other.
Qed.

Lemma failed_write_cleanup_witness :
  open_fault linux_disk_full = None /\
  write_fault linux_disk_full = Some (ENOSPC, 10%nat) /\
  main ipaddress.ip_network linux_disk_full (mkArgs "192.168.1.0/30" true true 30) ∅
       [Submit; Submit; Start; Start; Finish 0; Finish 0; Yield 0; Yield 0; Exhaust; Join]
  = Some (mkOutcome 1 ["192.168.1.1"; "192.168.1.2"] ∅) /\
  exit_status (mkOutcome 1 ["192.168.1.1"; "192.168.1.2"] ∅) = 1.
Proof.
  split; [reflexivity|]. split; [reflexivity|].
  assert (Hmain :
    main ipaddress.ip_network linux_disk_full (mkArgs "192.168.1.0/30" true true 30) ∅
         [Submit; Submit; Start; Start; Finish 0; Finish 0; Yield 0; Yield 0; Exhaust; Join]
    = Some (mkOutcome 1 ["192.168.1.1"; "192.168.1.2"] ∅)).
  { vm_compute. reflexivity. }
  split; [exact Hmain|].
  apply (failed_write_cleanup ipaddress.ip_network linux_disk_full
           (mkArgs "192.168.1.0/30" true true 30) [] None ∅
           [Submit; Submit; Start; Start; Finish 0; Finish 0; Yield 0; Yield 0; Exhaust; Join]
           (mkOutcome 1 ["192.168.1.1"; "192.168.1.2"] ∅) ENOSPC 10);
    [ reflexivity | reflexivity | reflexivity | simpl; lia | vm_compute; reflexivity
    | eexists; vm_compute; reflexivity | reflexivity | exact Hmain ].
Defined.

(** C6 fails where standard output cannot encode the symbol that opens a
    message. On every usage error (no confirmation, a worker count
    outside [1, 200], a network text that is rejected) [main] ends without
    a single probe and without touching a file, under every schedule; but
    its status is 2 only if the message is printed. Each [sys.exit(2)]
    comes after a [print], and a [print] that raises
    [UnicodeEncodeError] ends the run with status 1 instead: the one about
    the missing confirmation is outside any [try], the one about the
    network text is inside the handler. *)
Theorem usage_error_exit_status
    (ip_network : string -> bool -> result ipaddress.IPv4Network) (w : world)
    (a : args) (fs : gmap string file) (sched : list event) :
  validation_error ip_network a ->
  exists st,
    main ip_network w a fs sched = Some (mkOutcome st [] fs) /\
    (st = 2 \/ st = 1) /\
    (st = 1 -> exists text msg, print w text = Raise (UnicodeEncodeError msg)) /\
    (confirm_legal a = false -> (exists e, print w confirm_notice = Raise e) -> st = 1) /\
    (confirm_legal a = true -> 1 <= arg_max_workers a <= 200 ->
     print w (scanning_message a) = Ok () ->
     (exists e, print w (value_error_message
                           "Invalid network format. Use e.g. 192.168.1.0/24") = Raise e) ->
     st = 1).
Proof.
  intros Hval.
  assert (Hcases : forall printed,
    (forall e, printed = Raise e -> exists text msg,
       print w text = Raise (UnicodeEncodeError msg)) ->
    (print_and_exit printed 2 = 2 \/ print_and_exit printed 2 = 1) /\
    (print_and_exit printed 2 = 1 ->
     exists text msg, print w text = Raise (UnicodeEncodeError msg))).
  { intros printed Hpr.
    destruct (print_and_exit_cases printed 2) as [[-> _]|[-> [e He]]];
      (split; [auto|]); [done|]. intros _. by apply (Hpr e). }
  assert (Hone : forall text e, print w text = Raise e ->
    exists text' msg, print w text' = Raise (UnicodeEncodeError msg)).
  { intros text e He. destruct (print_raises _ _ _ He) as [msg ->]. eauto. }
  unfold main, validation_error in *.
  destruct (confirm_legal a) eqn:Hconfirm; simpl.
  2: { eexists. split; [done|].
       destruct (Hcases (_ ← print w confirm_notice; print w confirm_hint)) as [H1 H2].
       { intros e. destruct (print w confirm_notice) eqn:Hn; cbn [mbind result_bind].
         - apply Hone.
         - intros [= <-]. by apply (Hone _ _ Hn). }
       split; [done|]. split; [done|]. split; [|done].
       intros _ [e He]. by rewrite He. }
  destruct (Z.ltb_spec (arg_max_workers a) 1); simpl.
  { eexists. split; [done|]. destruct (Hcases (print w workers_notice)) as [H1 H2].
    { apply Hone. }
    split; [done|]. split; [done|]. split; [done|]. intros _ ?; lia. }
  destruct (Z.ltb_spec 200 (arg_max_workers a)); simpl.
  { eexists. split; [done|]. destruct (Hcases (print w workers_notice)) as [H1 H2].
    { apply Hone. }
    split; [done|]. split; [done|]. split; [done|]. intros _ ?; lia. }
  destruct Hval as [?|[?|[?|(e & He & Hve)]]]; try done; try lia.
  unfold main_try. destruct (print w (scanning_message a)) as [[]|e0] eqn:Hscan; simpl.
  - rewrite (scan_network_invalid _ _ _ _ _ _ He), Hve. simpl.
    eexists. split; [done|]. unfold main_except. simpl.
    destruct (Hcases (print w (value_error_message
                "Invalid network format. Use e.g. 192.168.1.0/24"))) as [H1 H2].
    { apply Hone. }
    split; [done|]. split; [done|]. split; [done|].
    intros _ _ _ [e1 He1]. by rewrite He1.
  - destruct (print_raises _ _ _ Hscan) as [msg ->].
    eexists. split; [done|]. unfold main_except. simpl.
    destruct (Hcases (print w (value_error_message msg))) as [H1 H2].
    { apply Hone. }
    split; [done|]. split; [done|]. split; [done|]. done.
Qed.

Lemma usage_error_exit_status_witness :
  validation_error ipaddress.ip_network (mkArgs "192.168.1.0/24" false false 30) /\
  print linux_ascii_stdout confirm_notice
  = Raise (UnicodeEncodeError ascii_codec_message) /\
  main ipaddress.ip_network linux_ascii_stdout (mkArgs "192.168.1.0/24" false false 30) ∅ []
  = Some (mkOutcome 1 [] ∅) /\
  main ipaddress.ip_network linux_ascii_stdout (mkArgs "192.168.1.300/24" true false 30) ∅ []
  = Some (mkOutcome 1 [] ∅) /\
  main ipaddress.ip_network linux_all_up (mkArgs "192.168.1.0/24" false false 30) ∅ []
  = Some (mkOutcome 2 [] ∅).
Proof.
  assert (Hval : validation_error ipaddress.ip_network
                   (mkArgs "192.168.1.0/24" false false 30)) by (left; reflexivity).
  assert (Hpr : print linux_ascii_stdout confirm_notice
                = Raise (UnicodeEncodeError ascii_codec_message))
    by (vm_compute; reflexivity).
  split; [exact Hval|]. split; [exact Hpr|].
  destruct (usage_error_exit_status ipaddress.ip_network linux_ascii_stdout
              (mkArgs "192.168.1.0/24" false false 30) ∅ [] Hval)
    as (st & Hmain & _ & _ & Hst & _).
  split; [|split; vm_compute; reflexivity].
  rewrite Hmain. do 2 f_equal. apply Hst; [reflexivity|]. eexists. exact Hpr.
Defined.

(** * Further properties: addresses *)

Section MoreAddressFacts.
Import ipaddress ipaddress_facts.

Lemma has_char_app c s t : has_char c (s +:+ t) = has_char c s || has_char c t.
Proof.
  induction s as [|a s IH]; [done|].
  change (has_char c (String a (s +:+ t)) = has_char c (String a s) || has_char c t).
  simpl. by rewrite IH, orb_assoc.
Qed.

Lemma prefix_text_ok_all : forallb prefix_text_ok (seqZ 0 33) = true.
Proof. vm_compute. reflexivity. Qed.

Lemma octet_no_slash_all : forallb octet_no_slash (seqZ 0 256) = true.
Proof. vm_compute. reflexivity. Qed.

Lemma pretty_prefix p : 0 <= p <= 32 ->
  prefix_from_prefix_string (pretty p) = Ok p /\ has_char "/" (pretty p) = false.
Proof.
  intros Hp. pose proof prefix_text_ok_all as H.
  rewrite forallb_forall in H. specialize (H p).
  unfold prefix_text_ok in H.
  destruct (prefix_from_prefix_string (pretty p)) as [v|].
  - apply andb_true_iff in H as [Hv Hd].
    + apply Z.eqb_eq in Hv. apply negb_true_iff in Hd. by subst.
    + apply list_elem_of_In, elem_of_seqZ. lia.
  - discriminate H. apply list_elem_of_In, elem_of_seqZ. lia.
Qed.

Lemma pretty_octet_no_slash o : 0 <= o <= 255 -> has_char "/" (pretty o) = false.
Proof.
  intros Ho. pose proof octet_no_slash_all as H.
  rewrite forallb_forall in H. apply negb_true_iff, H.
  apply list_elem_of_In, elem_of_seqZ. lia.
Qed.

Lemma str_no_slash n : has_char "/" (str n) = false.
Proof.
  unfold str. rewrite !has_char_app.
  rewrite !pretty_octet_no_slash by apply octet_range. done.
Qed.

Lemma split_cidr_text a p : 0 <= p <= 32 ->
  split "/" (cidr_text a p) = [str a; pretty p].
Proof.
  intros Hp. unfold cidr_text.
  rewrite split_app_sep by apply str_no_slash.
  rewrite split_no_sep; [done|]. by apply pretty_prefix.
Qed.

(** X1. Every address with every prefix length, written [a.b.c.d/p], is
    accepted with [strict=False], and the network built is the block of
    size [2^(32-p)] that holds the address; with [strict=True] the same
    text is accepted exactly when the address has no host bits. *)
Theorem canonical_text_accepted (a p : Z) :
  0 <= a < 2 ^ 32 ->
  0 <= p <= 32 ->
  ip_network (cidr_text a p) false = Ok (mkNetwork (a - a mod 2 ^ (32 - p)) p) /\
  (a mod 2 ^ (32 - p) = 0 -> ip_network (cidr_text a p) true = Ok (mkNetwork a p)) /\
  (a mod 2 ^ (32 - p) <> 0 ->
   exists msg, ip_network (cidr_text a p) true = Raise (ValueError msg)).
Proof.
  intros Ha Hp.
  assert (Hinit : forall strict,
    IPv4Network_init (cidr_text a p) strict = make_network a p strict).
  { intros strict. unfold IPv4Network_init, split_addr_prefix.
    rewrite split_cidr_text by done. cbn [mbind result_bind].
    rewrite str_roundtrip by done. cbn [mbind result_bind].
    unfold make_netmask. by rewrite (proj1 (pretty_prefix p Hp)). }
  pose proof (land_netmask a p Ha Hp) as Hland.
  unfold ip_network, try_except. rewrite !Hinit. split; [|split].
  - by rewrite make_network_nonstrict, Hland.
  - intros Hal. unfold make_network. rewrite Hland, Hal, Z.sub_0_r, Z.eqb_refl. done.
  - intros Hal. unfold make_network. rewrite Hland.
    destruct (Z.eqb_spec (a - a mod 2 ^ (32 - p)) a); [lia|]. simpl. eauto.
Qed.

Lemma canonical_text_accepted_witness :
  0 <= 3232235781 < 2 ^ 32 /\ 0 <= 24 <= 32 /\
  cidr_text 3232235781 24 = "192.168.1.5/24" /\
  ip_network (cidr_text 3232235781 24) false
  = Ok (mkNetwork (3232235781 - 3232235781 mod 2 ^ (32 - 24)) 24).
Proof.
  split; [lia|]. split; [lia|]. split; [vm_compute; reflexivity|].
  apply (canonical_text_accepted 3232235781 24); lia.
Defined.

Lemma hosts_between net x : valid_network net -> x ∈ hosts net ->
  network_address net <= x <= broadcast_address net.
Proof.
  intros Hv. pose proof (broadcast_value net Hv) as Hb.
  pose proof (size_pos net Hv) as Hs.
  unfold hosts, range, max_prefixlen.
  repeat case_match; rewrite ?elem_of_seqZ, ?list_elem_of_singleton; lia.
Qed.

(** X2. The enumeration stays inside the block: for every text that the
    [IPv4Network] constructor accepts with [strict=False], every address
    that [hosts()] yields for the network built is a 32-bit address with
    the prefix bits of the network, between its network and its broadcast
    address. *)
Theorem hosts_stay_in_block (text : string) (net : IPv4Network) (x : Z) :
  IPv4Network_init text false = Ok net ->
  x ∈ hosts net ->
  0 <= x < 2 ^ 32 /\
  Z.land x (netmask net) = network_address net /\
  network_address net <= x <= broadcast_address net.
Proof.
  intros Hparse Hx. pose proof (IPv4Network_init_valid _ _ _ Hparse) as Hv.
  pose proof (hosts_range net Hv x Hx) as Hr.
  pose proof (hosts_between net x Hv Hx) as Hbt.
  split; [done|]. split; [|done].
  pose proof (broadcast_value net Hv) as Hb.
  pose proof (network_aligned net Hv) as Hal.
  pose proof (size_pos net Hv) as Hs.
  destruct Hv as (Hp & _ & _).
  unfold netmask. rewrite land_netmask by done.
  set (k := 2 ^ (32 - prefixlen net)) in *.
  assert (Hmod : x mod k = x - network_address net).
  { apply Z.mod_divide in Hal; [|lia]. destruct Hal as [q Hq].
    symmetry. apply (Z.mod_unique_pos x k q); lia. }
  lia.
Qed.

Lemma hosts_stay_in_block_witness :
  IPv4Network_init "192.168.1.77/24" false = Ok (mkNetwork 3232235776 24) /\
  3232235900 ∈ hosts (mkNetwork 3232235776 24) /\
  Z.land 3232235900 (netmask (mkNetwork 3232235776 24)) = 3232235776.
Proof.
  assert (Hin : 3232235900 ∈ hosts (mkNetwork 3232235776 24)).
  { unfold hosts, range; simpl. apply elem_of_seqZ. vm_compute. by split. }
  split; [vm_compute; reflexivity|]. split; [exact Hin|].
  apply (hosts_stay_in_block "192.168.1.77/24" (mkNetwork 3232235776 24) 3232235900);
    [vm_compute; reflexivity | exact Hin].
Defined.

End MoreAddressFacts.

(** * Further properties: the scan *)

Section MoreCoordinatorFacts.

Context {A : Type}.
Variable probe : A -> result bool.
Variable announce : A -> result unit.
Variable max_workers : Z.

Abbreviation step := (step probe announce max_workers).
Abbreviation exec := (exec probe announce max_workers).
Abbreviation moves := (moves probe announce max_workers).
Abbreviation collected := (collected probe announce).

Implicit Types (hosts : list A) (s : state A) (sched : list event).

Lemma cancelled_moves s ev s' :
  shutdown_requested s = true /\ active s = [] /\ consumed s = [] ->
  moves s ev s' ->
  shutdown_requested s' = true /\ active s' = [] /\ consumed s' = [].
Proof. intros (Hfl & Hact & Hc) Hmv. destruct Hmv; simpl in *; done. Qed.

Lemma in_order_moves hosts s ev s' :
  (exists started, hosts = started ++ work_queue s ++ pending s /\
                   started ≡ₚ probed s) ->
  moves s ev s' ->
  exists started, hosts = started ++ work_queue s' ++ pending s' /\
                  started ≡ₚ probed s'.
Proof.
  intros (st & Heq & Hperm) Hmv. unfold probed in *.
  destruct Hmv; simpl in *; try (by exists st).
  - exists st. split; [|done]. by rewrite Heq, <- !app_assoc.
  - exists (st ++ [ip]). split; [by rewrite Heq, <- app_assoc|].
    rewrite Hperm. solve_Permutation.
  - exists st. split; [done|]. rewrite Hperm.
    generalize (delete_Permutation r i ip H). generalize (delete i r).
    intros d ->. solve_Permutation.
  - exists st. split; [done|]. rewrite Hperm.
    generalize (delete_Permutation f i ip H). generalize (delete i f).
    intros d ->. solve_Permutation.
Qed.

Lemma exec_submits (p : list A) : forall q t r f c a fl,
  exists t', (t <= t')%nat /\ (1 <= max_workers -> p <> [] -> (1 <= t')%nat) /\
    exec (mkState p q t r f c a fl InBlock) (replicate (length p) Submit)
    = Some (mkState [] (q ++ p) t' r f c a fl InBlock).
Proof.
  induction p as [|ip p IH]; intros q t r f c a fl.
  - exists t. rewrite app_nil_r. split; [lia|]. by split.
  - destruct (IH (q ++ [ip]) (if Z.of_nat t <? max_workers then S t else t) r f c a fl)
      as (t' & Hle & _ & Hexec).
    exists t'. split; [case_match; lia|]. split.
    + intros Hmw _. destruct (Z.ltb_spec (Z.of_nat t) max_workers); lia.
    + simpl. unfold submit; simpl. rewrite Hexec. by rewrite <- app_assoc.
Qed.

Lemma exec_probes (q : list A) : forall t f c a fl ph,
  (1 <= t)%nat ->
  exec (mkState [] q t [] f c a fl ph) (mjoin (replicate (length q) [Start; Finish 0]))
  = Some (mkState [] [] t [] (f ++ q) c a fl ph).
Proof.
  induction q as [|ip q IH]; intros t f c a fl ph Ht.
  - simpl. by rewrite app_nil_r.
  - simpl. destruct t as [|t]; [lia|]. simpl.
    rewrite (IH (S t) (f ++ [ip])) by done. by rewrite <- app_assoc.
Qed.

Lemma exec_reads (f : list A) : forall t c a,
  exec (mkState [] [] t [] f c a false InBlock) (replicate (length f) (Yield 0))
  = Some (mkState [] [] t [] [] (c ++ f)
                  (a ++ filter (fun ip => collected ip) f) false InBlock).
Proof.
  induction f as [|ip f IH]; intros t c a.
  - simpl. by rewrite !app_nil_r.
  - simpl. rewrite loop_body_spec. simpl.
    rewrite IH, filter_cons, <- !app_assoc.
    destruct (collected ip) eqn:Hip.
    + rewrite decide_True by done. by rewrite <- app_assoc.
    + rewrite decide_False; [done|]. by intros [].
Qed.

Lemma sequential_no_signal n : Signal ∉ sequential n.
Proof.
  assert (H : Forall (fun ev => ev <> Signal) (sequential n)).
  { unfold sequential. repeat apply Forall_app_2.
    - by apply Forall_replicate.
    - apply Forall_join, Forall_replicate. by repeat constructor.
    - by apply Forall_replicate.
    - by repeat constructor. }
  rewrite Forall_forall in H. intros Hin. by apply (H _ Hin).
Qed.

Lemma unread_moves s ev s' :
  (forall i, ev <> Yield i) ->
  active s = [] /\ consumed s = [] -> moves s ev s' ->
  active s' = [] /\ consumed s' = [].
Proof.
  intros Hev [Hact Hc] Hmv.
  destruct Hmv; simpl in *; try done; by destruct (Hev i).
Qed.

Lemma exec_cons s ev sched :
  exec s (ev :: sched)
  = match step s ev with Some s' => exec s' sched | None => None end.
Proof. done. Qed.

(** A run whose signal comes before the first result is read collects
    nothing. *)
Lemma cancelled_early hosts pre post s :
  (forall i, Yield i ∉ pre) ->
  exec (init hosts) (pre ++ Signal :: post) = Some s ->
  active s = [].
Proof.
  intros Hpre. rewrite exec_app.
  destruct (exec (init hosts) pre) as [s1|] eqn:Hs1; [|done].
  change (Some s1 ≫= _) with (exec s1 (Signal :: post)). rewrite exec_cons.
  assert (H1 : active s1 = [] /\ consumed s1 = []).
  { revert Hs1.
    apply (exec_invariant_on probe announce max_workers
             (fun ev => forall i, ev <> Yield i)
             (fun s => active s = [] /\ consumed s = []));
      [|by apply Forall_forall; intros ev Hin i ->; apply (Hpre i)|done].
    intros s0 ev s0' Hev. by apply unread_moves. }
  destruct (step s1 Signal) as [s2|] eqn:Hs2; [|done].
  apply step_moves in Hs2.
  assert (H2 : shutdown_requested s2 = true /\ active s2 = [] /\ consumed s2 = []).
  { destruct H1. inversion Hs2; subst; simpl in *; done. }
  intros Hs. revert H2 Hs.
  apply (exec_invariant probe announce max_workers
           (fun s => shutdown_requested s = true /\ active s = [] /\ consumed s = [])
           cancelled_moves post s2 s).
Qed.

(** When the [with] statement is left, every address has been probed. *)
Lemma returned_probed hosts sched s :
  exec (init hosts) sched = Some s -> pc s = Returned -> probed s ≡ₚ hosts.
Proof.
  intros Hs Hpc. pose proof (exec_conserved _ _ _ _ _ _ Hs) as Hperm.
  destruct (exec_well_formed _ _ _ _ _ _ Hs) as (_ & _ & _ & _ & Hph).
  rewrite Hpc in Hph. destruct Hph as (Hp & Hq & Hr).
  unfold conserved in Hperm. unfold probed. rewrite Hperm, Hp, Hq, Hr. simpl.
  solve_Permutation.
Qed.

Lemma exec_app_Some s s1 sched1 sched2 :
  exec s sched1 = Some s1 -> exec s (sched1 ++ sched2) = exec s1 sched2.
Proof. intros H. by rewrite exec_app, H. Qed.

Lemma exec_sequential hosts :
  1 <= max_workers ->
  exists t,
    exec (init hosts) (sequential (length hosts))
    = Some (mkState [] [] t [] [] hosts
                    (filter (fun ip => collected ip) hosts) false Returned).
Proof.
  intros Hmw. unfold sequential, init.
  destruct (exec_submits hosts [] 0%nat [] [] [] [] false) as (t & _ & Ht & Hsub).
  destruct (decide (hosts = [])) as [->|Hne]; [by exists 0%nat|].
  exists t. rewrite (exec_app_Some _ _ _ _ Hsub).
  rewrite (exec_app_Some _ _ _ _ (exec_probes hosts t [] [] [] false InBlock (Ht Hmw Hne))).
  rewrite (exec_app_Some _ _ _ _ (exec_reads hosts t [] [])).
  done.
Qed.

End MoreCoordinatorFacts.

(** X4. A signal that arrives before the loop has read its first result
    empties the scan: whatever the probes had found by then and find
    afterwards, [scan_network] returns the empty list. *)
Theorem cancelled_before_first_result
    (ip_network : string -> bool -> result ipaddress.IPv4Network) (w : world)
    (cidr : string) (max_workers : Z) (net : ipaddress.IPv4Network)
    (pre post : list event) (out : scan_outcome) :
  ip_network cidr false = Ok net ->
  1 <= max_workers ->
  (forall i, Yield i ∉ pre) ->
  scan_network ip_network w cidr max_workers (pre ++ Signal :: post) = Some out ->
  scan_result out = Ok [].
Proof.
  intros Hnet Hmw Hpre Hscan.
  destruct (scan_network_run _ _ _ _ _ _ _ Hnet Hmw Hscan) as (s & Hs & _ & ->).
  simpl. f_equal. by eapply cancelled_early.
Qed.

Ltac no_yield :=
  let i := fresh in let H := fresh in
  intros i H; repeat (apply elem_of_cons in H as [H|H]; [discriminate H|]);
  by apply elem_of_nil in H.

Lemma cancelled_before_first_result_witness :
  ipaddress.ip_network "192.168.1.0/30" false = Ok (ipaddress.mkNetwork 3232235776 30) /\
  1 <= 2 /\
  (forall i, Yield i ∉ [Submit; Submit; Start; Start; Finish 0; Finish 0]) /\
  scan_network ipaddress.ip_network linux_all_up "192.168.1.0/30" 2
    ([Submit; Submit; Start; Start; Finish 0; Finish 0]
     ++ Signal :: [Yield 0; Join])
  = Some (mkScanOutcome (Ok []) ["192.168.1.1"; "192.168.1.2"]) /\
  scan_result (mkScanOutcome (Ok []) ["192.168.1.1"; "192.168.1.2"]) = Ok [].
Proof.
  split; [vm_compute; reflexivity|]. split; [lia|]. split; [no_yield|].
  split; [vm_compute; reflexivity|].
  apply (cancelled_before_first_result ipaddress.ip_network linux_all_up "192.168.1.0/30" 2
           (ipaddress.mkNetwork 3232235776 30)
           [Submit; Submit; Start; Start; Finish 0; Finish 0] [Yield 0; Join]);
    [vm_compute; reflexivity | lia | no_yield | vm_compute; reflexivity].
Defined.

(** X5. A scan that returns has probed every host address of the network,
    each one once, whether or not it was cancelled on the way. *)
Theorem scan_probes_every_host_once
    (ip_network : string -> bool -> result ipaddress.IPv4Network) (w : world)
    (cidr : string) (max_workers : Z) (net : ipaddress.IPv4Network)
    (sched : list event) (out : scan_outcome) :
  ip_network cidr false = Ok net ->
  1 <= max_workers ->
  scan_network ip_network w cidr max_workers sched = Some out ->
  scan_probed out ≡ₚ ipaddress.str <$> ipaddress.hosts net.
Proof.
  intros Hnet Hmw Hscan.
  destruct (scan_network_run _ _ _ _ _ _ _ Hnet Hmw Hscan) as (s & Hs & Hpc & ->).
  simpl. by eapply returned_probed.
Qed.

Lemma scan_probes_every_host_once_witness :
  ipaddress.ip_network "192.168.1.0/30" false = Ok (ipaddress.mkNetwork 3232235776 30) /\
  1 <= 1 /\
  scan_network ipaddress.ip_network linux_all_up "192.168.1.0/30" 1
    [Submit; Start; Finish 0; Signal; Submit; Yield 0; Start; Finish 0; Join]
  = Some (mkScanOutcome (Ok []) ["192.168.1.1"; "192.168.1.2"]) /\
  ["192.168.1.1"; "192.168.1.2"]
  ≡ₚ ipaddress.str <$> ipaddress.hosts (ipaddress.mkNetwork 3232235776 30).
Proof.
  split; [vm_compute; reflexivity|]. split; [lia|]. split; [vm_compute; reflexivity|].
  apply (scan_probes_every_host_once ipaddress.ip_network linux_all_up "192.168.1.0/30" 1
           (ipaddress.mkNetwork 3232235776 30)
           [Submit; Start; Finish 0; Signal; Submit; Yield 0; Start; Finish 0; Join]
           (mkScanOutcome (Ok []) ["192.168.1.1"; "192.168.1.2"]));
    [vm_compute; reflexivity | lia | vm_compute; reflexivity].
Defined.

(** X6. Probes are dispatched in enumeration order: at every instant the
    addresses whose probe has not been started are, in order, the tail of
    the enumeration, first those waiting in the queue and then those not
    yet submitted. *)
Theorem dispatch_in_enumeration_order {A : Type} (probe : A -> result bool)
    (announce : A -> result unit) (max_workers : Z) (hosts : list A)
    (sched : list event) (s : state A) :
  exec probe announce max_workers (init hosts) sched = Some s ->
  exists started,
    hosts = started ++ work_queue s ++ pending s /\
    started ≡ₚ probed s.
Proof.
  apply (exec_invariant probe announce max_workers
           (fun s => exists started, hosts = started ++ work_queue s ++ pending s /\
                                     started ≡ₚ probed s)).
  - intros s0 ev s0'. apply in_order_moves.
  - by exists [].
Qed.

Lemma dispatch_in_enumeration_order_witness :
  exists started,
    ["10.0.0.1"; "10.0.0.2"; "10.0.0.3"; "10.0.0.4"]
    = started ++ work_queue (mkState ["10.0.0.4"] ["10.0.0.3"] 2 ["10.0.0.1"] ["10.0.0.2"]
                                     [] [] false InBlock)
              ++ pending (mkState ["10.0.0.4"] ["10.0.0.3"] 2 ["10.0.0.1"] ["10.0.0.2"]
                                  [] [] false InBlock) /\
    started ≡ₚ probed (mkState ["10.0.0.4"] ["10.0.0.3"] 2 ["10.0.0.1"] ["10.0.0.2"]
                               [] [] false InBlock).
Proof.
  apply (dispatch_in_enumeration_order (ping_host linux_all_up) (print_active linux_all_up) 2
           ["10.0.0.1"; "10.0.0.2"; "10.0.0.3"; "10.0.0.4"]
           [Submit; Submit; Start; Start; Submit; Finish 1]).
  vm_compute; reflexivity.
Defined.

(** X7. Under the schedule that runs one probe at a time, a scan of an
    accepted network probes the hosts in address order and returns, in
    address order, the hosts found reachable whose line it could print:
    all the reachable hosts when standard output takes every line. *)
Theorem sequential_scan_in_address_order
    (ip_network : string -> bool -> result ipaddress.IPv4Network) (w : world)
    (cidr : string) (max_workers : Z) (net : ipaddress.IPv4Network) :
  ip_network cidr false = Ok net ->
  1 <= max_workers ->
  scan_network ip_network w cidr max_workers
    (sequential (length (ipaddress.hosts net)))
  = Some (mkScanOutcome
            (Ok (filter (fun ip => collected (ping_host w) (print_active w) ip)
                        (ipaddress.str <$> ipaddress.hosts net)))
            (ipaddress.str <$> ipaddress.hosts net)) /\
  ((forall ip, print_active w ip = Ok ()) ->
   filter (fun ip => collected (ping_host w) (print_active w) ip)
          (ipaddress.str <$> ipaddress.hosts net)
   = filter (fun ip => reachable (ping_host w) ip)
            (ipaddress.str <$> ipaddress.hosts net)).
Proof.
  intros Hnet Hmw. split.
  - unfold scan_network. rewrite Hnet. simpl.
    destruct (Z.leb_spec max_workers 0); [lia|].
    destruct (exec_sequential (ping_host w) (print_active w) max_workers
                (ipaddress.str <$> ipaddress.hosts net) Hmw) as [t Ht].
    rewrite length_fmap in Ht. unfold run_pool. rewrite Ht. simpl.
    unfold probed. simpl. by rewrite app_nil_r.
  - intros Hpr. apply filter_collected_all_announced. intros ip. eauto.
Qed.

Lemma sequential_scan_in_address_order_witness :
  ipaddress.ip_network "192.168.1.0/30" false = Ok (ipaddress.mkNetwork 3232235776 30) /\
  1 <= 30 /\
  scan_network ipaddress.ip_network linux_one_up "192.168.1.0/30" 30
    (sequential (length (ipaddress.hosts (ipaddress.mkNetwork 3232235776 30))))
  = Some (mkScanOutcome (Ok ["192.168.1.1"]) ["192.168.1.1"; "192.168.1.2"]).
Proof.
  assert (Hnet : ipaddress.ip_network "192.168.1.0/30" false
                 = Ok (ipaddress.mkNetwork 3232235776 30)) by (vm_compute; reflexivity).
  split; [exact Hnet|]. split; [lia|].
  assert (Hmw : 1 <= 30) by lia.
  rewrite (proj1 (sequential_scan_in_address_order ipaddress.ip_network linux_one_up
                    "192.168.1.0/30" 30 (ipaddress.mkNetwork 3232235776 30) Hnet Hmw)).
  vm_compute; reflexivity.
Defined.

(** * Further properties: saving and [main] *)

Section MoreFilesFacts.

Variable w : world.

(** [save_results_securely] under every combination of I/O failures. *)
Lemma save_results_securely_cases hosts filename (fs : gmap string file) :
  save_results_securely w hosts filename fs
  = match open_fault w with
    | Some errno => (Raise (OSError errno), fs)
    | None =>
        match write_fault w with
        | None =>
            (Ok (target w filename),
             <[target w filename :=
                 mkFile (saved_mode w fs (target w filename)) (report w hosts)]> fs)
        | Some (errno, n) =>
            (Raise (OSError errno),
             match remove_fault w with
             | None => delete (target w filename) fs
             | Some _ =>
                 <[target w filename :=
                     mkFile (saved_mode w fs (target w filename))
                            (String.substring 0 n (report w hosts))]> fs
             end)
        end
    end.
Proof.
  unfold save_results_securely. fold (target w filename).
  set (path := target w filename).
  destruct (open_fault w) as [errno|] eqn:Hopen.
  { unfold os_open. by rewrite Hopen. }
  rewrite (os_open_creat w fs path) by done. fold (saved_mode w fs path).
  unfold write_and_close. destruct (write_fault w) as [[errno n]|].
  - rewrite alter_insert_eq. unfold os_remove.
    destruct (remove_fault w); simpl; [done|].
    by rewrite lookup_insert_eq, delete_insert_eq.
  - by rewrite alter_insert_eq.
Qed.

Lemma split_unlines c (lines : list string) :
  Forall (fun l => has_char c l = false) lines ->
  ipaddress.split c (foldr (fun l acc => l +:+ String c EmptyString +:+ acc) "" lines)
  = lines ++ [""].
Proof.
  induction 1 as [|l lines Hl _ IH]; [done|]. simpl foldr.
  by rewrite ipaddress_facts.split_app_sep, IH.
Qed.

Lemma octet_one_line_all : forallb octet_one_line (seqZ 0 256) = true.
Proof. vm_compute. reflexivity. Qed.

Lemma str_one_line n : has_char newline_char (ipaddress.str n) = false.
Proof.
  assert (Hoct : forall i, has_char newline_char (pretty (ipaddress.octet n i)) = false).
  { intros i. pose proof octet_one_line_all as H. rewrite forallb_forall in H.
    apply negb_true_iff, H, list_elem_of_In, elem_of_seqZ.
    pose proof (ipaddress_facts.octet_range n i). lia. }
  unfold ipaddress.str. rewrite !has_char_app, !Hoct. done.
Qed.

End MoreFilesFacts.



(** X8. A file saved without I/O failure reads back to what was saved:
    split at the line breaks, its text is the header, the timestamp line
    and then the hosts, each on a line of its own and in the order given,
    with nothing after the last line break. This needs the timestamp and
    the hosts to be free of line breaks, as dotted quads are. *)
Theorem saved_file_reads_back (w : world) (hosts : list string)
    (filename : option string) (fs fs' : gmap string file) (path : string) :
  has_char newline_char (utcnow_isoformat w) = false ->
  Forall (fun h => has_char newline_char h = false) hosts ->
  save_results_securely w hosts filename fs = (Ok path, fs') ->
  exists f,
    fs' !! path = Some f /\
    read_lines (contents f)
    = "Scan results - host discovery"
      :: ("Timestamp (UTC): " +:+ utcnow_isoformat w +:+ "Z")
      :: hosts ++ [""].
Proof.
  intros Hts Hhosts. rewrite save_results_securely_cases.
  destruct (open_fault w); [done|]. destruct (write_fault w) as [[]|]; [done|].
  intros [= <- <-]. eexists. split; [apply lookup_insert_eq|].
  simpl. rewrite report_lines. unfold read_lines.
  apply (split_unlines newline_char
           ("Scan results - host discovery"
            :: ("Timestamp (UTC): " +:+ utcnow_isoformat w +:+ "Z") :: hosts)).
  constructor; [done|]. constructor; [|done].
  rewrite !has_char_app, Hts. done.
Qed.

Lemma saved_file_reads_back_witness :
  has_char newline_char (utcnow_isoformat linux_all_up) = false /\
  Forall (fun h => has_char newline_char h = false) ["192.168.1.1"; "192.168.1.7"] /\
  exists f,
    (snd (save_results_securely linux_all_up ["192.168.1.1"; "192.168.1.7"] None ∅))
      !! "/tmp/scan_20260101T000000Z.txt" = Some f /\
    read_lines (contents f)
    = ["Scan results - host discovery"; "Timestamp (UTC): 2026-01-01T00:00:00Z";
       "192.168.1.1"; "192.168.1.7"; ""].
Proof.
  assert (H1 : has_char newline_char (utcnow_isoformat linux_all_up) = false)
    by (vm_compute; reflexivity).
  assert (H2 : Forall (fun h => has_char newline_char h = false)
                 ["192.168.1.1"; "192.168.1.7"])
    by (repeat constructor).
  split; [exact H1|]. split; [exact H2|].
  destruct (saved_file_reads_back linux_all_up ["192.168.1.1"; "192.168.1.7"] None ∅
              (snd (save_results_securely linux_all_up ["192.168.1.1"; "192.168.1.7"] None ∅))
              "/tmp/scan_20260101T000000Z.txt" H1 H2)
    as (f & Hf & Hlines); [vm_compute; reflexivity|].
  exists f. split; [exact Hf|exact Hlines].
Defined.

(** X10. Saving is idempotent: a second save of the same hosts at the same
    clock readings, after one that met no I/O failure, returns the same
    name and leaves the file system as the first one left it, permission
    bits included. *)
Theorem save_twice_is_save_once (w : world) (hosts : list string)
    (filename : option string) (fs fs1 : gmap string file) (path : string) :
  save_results_securely w hosts filename fs = (Ok path, fs1) ->
  save_results_securely w hosts filename fs1 = (Ok path, fs1).
Proof.
  rewrite !save_results_securely_cases.
  destruct (open_fault w); [done|]. destruct (write_fault w) as [[]|]; [done|].
  intros [= <- <-]. f_equal.
  unfold saved_mode at 1. rewrite lookup_insert_eq. simpl.
  by rewrite insert_insert_eq.
Qed.

Lemma save_twice_is_save_once_witness :
  save_results_securely linux_all_up ["192.168.1.1"] None
    (snd (save_results_securely linux_all_up ["192.168.1.1"] None ∅))
  = (Ok "/tmp/scan_20260101T000000Z.txt",
     snd (save_results_securely linux_all_up ["192.168.1.1"] None ∅)).
Proof.
  apply (save_twice_is_save_once linux_all_up ["192.168.1.1"] None ∅).
  vm_compute; reflexivity.
Defined.

(** X16. On a standard output that takes every message, each usage error
    (no confirmation, a worker count outside [1, 200], a network text
    that is rejected) ends the run with status 2, under every schedule,
    without a single probe and without touching a file. *)
Theorem usage_errors_exit_2
    (ip_network : string -> bool -> result ipaddress.IPv4Network) (w : world)
    (a : args) (fs : gmap string file) (sched : list event) :
  (forall text, print w text = Ok ()) ->
  validation_error ip_network a ->
  main ip_network w a fs sched = Some (mkOutcome 2 [] fs).
Proof.
  intros Hpr Hval. unfold main, validation_error in *.
  destruct (confirm_legal a); simpl.
  2: { by rewrite !Hpr. }
  destruct (Z.ltb_spec (arg_max_workers a) 1); simpl; [by rewrite Hpr|].
  destruct (Z.ltb_spec 200 (arg_max_workers a)); simpl; [by rewrite Hpr|].
  destruct Hval as [?|[?|[?|(e & He & Hve)]]]; try done; try lia.
  unfold main_try. rewrite Hpr.
  rewrite (scan_network_invalid _ _ _ _ _ _ He), Hve. simpl.
  unfold main_except. simpl. by rewrite Hpr.
Qed.

Lemma usage_errors_exit_2_witness :
  (forall text, print linux_all_up text = Ok ()) /\
  validation_error ipaddress.ip_network (mkArgs "192.168.1.0/24" true false 0) /\
  validation_error ipaddress.ip_network (mkArgs "192.168.1.0/24" true false 201) /\
  validation_error ipaddress.ip_network (mkArgs "192.168.1.300/24" true false 30) /\
  main ipaddress.ip_network linux_all_up (mkArgs "192.168.1.0/24" false false 30) ∅ []
  = Some (mkOutcome 2 [] ∅) /\
  main ipaddress.ip_network linux_all_up (mkArgs "192.168.1.0/24" true false 0) ∅ []
  = Some (mkOutcome 2 [] ∅) /\
  main ipaddress.ip_network linux_all_up (mkArgs "192.168.1.0/24" true false 201) ∅ []
  = Some (mkOutcome 2 [] ∅) /\
  main ipaddress.ip_network linux_all_up (mkArgs "192.168.1.300/24" true false 30) ∅ []
  = Some (mkOutcome 2 [] ∅).
Proof.
  assert (Hpr : forall text, print linux_all_up text = Ok ()).
  { intros text. unfold print. by destruct (isascii text). }
  assert (H1 : validation_error ipaddress.ip_network (mkArgs "192.168.1.0/24" false false 30))
    by (left; reflexivity).
  assert (H2 : validation_error ipaddress.ip_network (mkArgs "192.168.1.0/24" true false 0))
    by (right; left; simpl; lia).
  assert (H3 : validation_error ipaddress.ip_network (mkArgs "192.168.1.0/24" true false 201))
    by (right; right; left; simpl; lia).
  assert (H4 : validation_error ipaddress.ip_network (mkArgs "192.168.1.300/24" true false 30)).
  { right; right; right. eexists. split; [vm_compute; reflexivity | reflexivity]. }
  split; [exact Hpr|]. repeat (split; [assumption|]).
  split; [|split; [|split]].
  - exact (usage_errors_exit_2 ipaddress.ip_network linux_all_up _ ∅ [] Hpr H1).
  - exact (usage_errors_exit_2 ipaddress.ip_network linux_all_up _ ∅ [] Hpr H2).
  - exact (usage_errors_exit_2 ipaddress.ip_network linux_all_up _ ∅ [] Hpr H3).
  - exact (usage_errors_exit_2 ipaddress.ip_network linux_all_up _ ∅ [] Hpr H4).
Defined.

(** X12. What [main] saves is what the scan found: when it exits with
    status 0 under [--save], the scan has returned a list, and the results
    file holds the header line, the timestamp line and that list, which
    reads back line by line; every address in it is a host address of the
    network that was probed and answered the ping, and none is listed
    twice. *)
Theorem saved_results_are_scan_results
    (ip_network : string -> bool -> result ipaddress.IPv4Network) (w : world)
    (a : args) (fs : gmap string file) (sched : list event) (out : outcome) :
  main ip_network w a fs sched = Some out ->
  save a = true ->
  exit_status out = 0 ->
  exists net sc hs f,
    ip_network (network a) false = Ok net /\
    scan_network ip_network w (network a) (arg_max_workers a) sched = Some sc /\
    scan_result sc = Ok hs /\
    out_probed out = scan_probed sc /\
    out_files out !! default_filename w = Some f /\
    contents f = unlines ("Scan results - host discovery"
                          :: ("Timestamp (UTC): " +:+ utcnow_isoformat w +:+ "Z")
                          :: hs) /\
    (forall h, h ∈ hs ->
       h ∈ ipaddress.str <$> ipaddress.hosts net /\
       h ∈ out_probed out /\
       ping_host w h = Ok true) /\
    (valid_network net -> NoDup hs) /\
    (has_char newline_char (utcnow_isoformat w) = false ->
     read_lines (contents f)
     = "Scan results - host discovery"
       :: ("Timestamp (UTC): " +:+ utcnow_isoformat w +:+ "Z")
       :: hs ++ [""]).
Proof.
  intros Hmain Hsv Hexit.
  destruct (main_exit_0 _ _ _ _ _ _ Hmain Hexit)
    as (Hc & Hmw & sc & hs & Hsc & Hhs & Hprobed & Hsave).
  rewrite Hsv in Hsave. destruct Hsave as [path Hsave].
  destruct (scan_network_returns _ _ _ _ _ _ _ Hsc Hhs) as (net & Hnet & _).
  destruct (scan_network_run _ _ _ _ _ _ _ Hnet (proj1 Hmw) Hsc) as (s & Hs & Hpc & ->).
  simpl in Hhs, Hprobed. injection Hhs as <-.
  rewrite save_results_securely_cases in Hsave.
  destruct (open_fault w); [done|].
  destruct (write_fault w) as [[errno n]|]; [done|].
  injection Hsave as _ Hfiles.
  destruct (active_sound _ _ _ _ _ _ Hs) as [Hnd Hin].
  exists net, (mkScanOutcome (Ok (active s)) (probed s)), (active s),
    (mkFile (saved_mode w fs (default_filename w)) (report w (active s))).
  split; [done|]. split; [done|]. split; [done|]. split; [done|].
  split; [rewrite <- Hfiles; apply lookup_insert_eq|].
  split; [apply report_lines|]. split; [|split].
  - intros h Hh. destruct (Hin h Hh) as (H1 & H2 & H3).
    split; [done|]. split; [|done].
    rewrite Hprobed. unfold probed. rewrite elem_of_app. by left.
  - intros Hv. apply Hnd. by apply ipaddress_facts.hosts_str_NoDup.
  - intros Hts. simpl. rewrite report_lines. unfold read_lines.
    apply (split_unlines newline_char
             ("Scan results - host discovery"
              :: ("Timestamp (UTC): " +:+ utcnow_isoformat w +:+ "Z") :: active s)).
    constructor; [done|]. constructor; [by rewrite !has_char_app, Hts|].
    apply Forall_forall. intros h Hh. destruct (Hin h Hh) as (H1 & _ & _).
    apply list_elem_of_fmap in H1 as (n & -> & _). apply str_one_line.
Qed.

Lemma saved_results_are_scan_results_witness :
  main ipaddress.ip_network linux_one_up (mkArgs "192.168.1.0/30" true true 2) ∅ (sequential 2)
  = Some (mkOutcome 0 ["192.168.1.1"; "192.168.1.2"]
            {["/tmp/scan_20260101T000000Z.txt" :=
                mkFile 384 (report linux_one_up ["192.168.1.1"])]}) /\
  exists net sc hs f,
    ipaddress.ip_network "192.168.1.0/30" false = Ok net /\
    scan_network ipaddress.ip_network linux_one_up "192.168.1.0/30" 2 (sequential 2)
    = Some sc /\
    scan_result sc = Ok hs /\
    ({["/tmp/scan_20260101T000000Z.txt" :=
         mkFile 384 (report linux_one_up ["192.168.1.1"])]} : gmap string file)
      !! default_filename linux_one_up = Some f /\
    contents f = unlines ("Scan results - host discovery"
                          :: "Timestamp (UTC): 2026-01-01T00:00:00Z" :: hs).
Proof.
  assert (Hmain :
    main ipaddress.ip_network linux_one_up (mkArgs "192.168.1.0/30" true true 2) ∅
         (sequential 2)
    = Some (mkOutcome 0 ["192.168.1.1"; "192.168.1.2"]
              {["/tmp/scan_20260101T000000Z.txt" :=
                  mkFile 384 (report linux_one_up ["192.168.1.1"])]})).
  { vm_compute. reflexivity. }
  split; [exact Hmain|].
  destruct (saved_results_are_scan_results ipaddress.ip_network linux_one_up _ _ _ _
              Hmain eq_refl eq_refl)
    as (net & sc & hs & f & Hnet & Hsc & Hhs & _ & Hf & Hc & _).
  exists net, sc, hs, f.
  split; [exact Hnet|]. split; [exact Hsc|]. split; [exact Hhs|].
  split; [exact Hf|exact Hc].
Defined.

(** X13. On arguments that pass validation, without I/O failure and on a
    standard output that takes the lines of [main], a run under the
    one-probe-at-a-time schedule ends with status 0, having probed every
    host of the network in address order; with [--save] the results file
    then lists, in address order, the hosts found reachable whose line the
    scan could print, and without it no file changes. *)
Theorem main_sequential_run
    (ip_network : string -> bool -> result ipaddress.IPv4Network) (w : world)
    (a : args) (fs : gmap string file) (net : ipaddress.IPv4Network) :
  confirm_legal a = true ->
  1 <= arg_max_workers a <= 200 ->
  ip_network (network a) false = Ok net ->
  open_fault w = None ->
  write_fault w = None ->
  print w (scanning_message a) = Ok () ->
  (save a = true -> print w (saved_message (default_filename w)) = Ok ()) ->
  exists out,
    main ip_network w a fs (sequential (length (ipaddress.hosts net))) = Some out /\
    exit_status out = 0 /\
    out_probed out = ipaddress.str <$> ipaddress.hosts net /\
    (save a = true ->
     out_files out !! default_filename w
     = Some (mkFile (saved_mode w fs (default_filename w))
                    (report w (filter (fun ip => collected (ping_host w)
                                                   (print_active w) ip)
                                      (ipaddress.str <$> ipaddress.hosts net))))) /\
    (save a = false -> out_files out = fs).
Proof.
  intros Hc Hmw Hnet Hopen Hwrite Hscan Hsaved.
  rewrite (main_validated _ _ _ _ _ Hc Hmw). unfold main_try. rewrite Hscan.
  unfold scan_network. rewrite Hnet. simpl.
  destruct (Z.leb_spec (arg_max_workers a) 0); [lia|].
  destruct (exec_sequential (ping_host w) (print_active w) (arg_max_workers a)
              (ipaddress.str <$> ipaddress.hosts net) (proj1 Hmw)) as [t Ht].
  rewrite length_fmap in Ht. unfold run_pool. rewrite Ht. simpl.
  unfold probed. simpl. rewrite app_nil_r.
  rewrite ?(print_isascii w completed_message) by done.
  cbn [mbind result_bind]. rewrite print_total.
  destruct (save a).
  - rewrite save_results_securely_cases, Hopen, Hwrite.
    change (target w None) with (default_filename w).
    rewrite Hsaved by done. eexists. split; [done|]. simpl.
    split; [done|]. split; [done|]. split; [|done].
    intros _. apply lookup_insert_eq.
  - eexists. split; [done|]. simpl. by repeat split.
Qed.

Lemma main_sequential_run_witness :
  ipaddress.ip_network "192.168.1.0/30" false = Ok (ipaddress.mkNetwork 3232235776 30) /\
  main ipaddress.ip_network linux_one_up (mkArgs "192.168.1.0/30" true true 30) ∅
       (sequential (length (ipaddress.hosts (ipaddress.mkNetwork 3232235776 30))))
  = Some (mkOutcome 0 ["192.168.1.1"; "192.168.1.2"]
            {["/tmp/scan_20260101T000000Z.txt" :=
                mkFile 384 (report linux_one_up ["192.168.1.1"])]}) /\
  exists out,
    main ipaddress.ip_network linux_one_up (mkArgs "192.168.1.0/30" true true 30) ∅
         (sequential (length (ipaddress.hosts (ipaddress.mkNetwork 3232235776 30))))
    = Some out /\
    exit_status out = 0 /\
    out_probed out = ["192.168.1.1"; "192.168.1.2"].
Proof.
  split; [vm_compute; reflexivity|]. split; [vm_compute; reflexivity|].
  destruct (main_sequential_run ipaddress.ip_network linux_one_up
              (mkArgs "192.168.1.0/30" true true 30) ∅
              (ipaddress.mkNetwork 3232235776 30))
    as (out & Hmain & Hexit & Hprobed & _);
    [ reflexivity | simpl; lia | vm_compute; reflexivity | reflexivity | reflexivity
    | vm_compute; reflexivity | intros _; vm_compute; reflexivity | ].
  exists out. split; [exact Hmain|]. split; [exact Hexit|].
  rewrite Hprobed. vm_compute. reflexivity.
Defined.

(** * Worked runs *)

Example split_slash : ipaddress.split "/" "192.168.1.5/24" = ["192.168.1.5"; "24"].
Proof. reflexivity. Qed.

Example parse_example :
  ipaddress.ip_network "192.168.1.5/24" false
  = Ok (ipaddress.mkNetwork 3232235776 24).
Proof. vm_compute. reflexivity. Qed.

Example parse_mask_example :
  ipaddress.ip_network "10.0.0.0/255.255.255.252" false
  = Ok (ipaddress.mkNetwork 167772160 30).
Proof. vm_compute. reflexivity. Qed.

Example parse_hostmask_example :
  ipaddress.ip_network "10.0.0.0/0.0.0.3" false
  = Ok (ipaddress.mkNetwork 167772160 30).
Proof. vm_compute. reflexivity. Qed.

Example hosts_example :
  ipaddress.str <$> ipaddress.hosts (ipaddress.mkNetwork 3232235776 30)
  = ["192.168.1.1"; "192.168.1.2"].
Proof. vm_compute. reflexivity. Qed.

(** The scenario of the specification: on 192.168.1.0/30, with only
    192.168.1.1 answering, the scan reports that address, and [main] exits
    with status 0. *)
Example scan_slash_30 :
  main ipaddress.ip_network linux_one_up (mkArgs "192.168.1.0/30" true false 30) ∅
       [Submit; Submit; Start; Start; Finish 1; Finish 0; Yield 0; Yield 0; Exhaust; Join]
  = Some (mkOutcome 0 ["192.168.1.2"; "192.168.1.1"] ∅) /\
  scan_network ipaddress.ip_network linux_one_up "192.168.1.0/30" 30
       [Submit; Submit; Start; Start; Finish 1; Finish 0; Yield 0; Yield 0; Exhaust; Join]
  = Some (mkScanOutcome (Ok ["192.168.1.1"]) ["192.168.1.2"; "192.168.1.1"]).
Proof. vm_compute. split; reflexivity. Qed.

(** On a standard output that cannot encode the symbol of the line
    [Active], every host answers and none is reported: the [print] raises
    inside the [try] of the loop, before the address is appended. *)
Example scan_on_ascii_stdout :
  scan_network ipaddress.ip_network linux_ascii_stdout "192.168.1.0/30" 30 (sequential 2)
  = Some (mkScanOutcome (Ok []) ["192.168.1.1"; "192.168.1.2"]) /\
  main ipaddress.ip_network linux_ascii_stdout (mkArgs "192.168.1.0/30" true true 30) ∅
       (sequential 2)
  = Some (mkOutcome 0 ["192.168.1.1"; "192.168.1.2"]
            {["/tmp/scan_20260101T000000Z.txt" := mkFile 384 (report linux_ascii_stdout [])]}).
Proof. vm_compute. split; reflexivity. Qed.

(** The bound of [in_flight_bounded] is on the probes being run, not on
    the futures: all of them are created before the first result is read,
    and those that no worker has taken yet wait in the queue. *)
Example queue_exceeds_workers :
  exec (ping_host linux_all_up) (print_active linux_all_up) 1
       (init ["10.0.0.1"; "10.0.0.2"; "10.0.0.3"])
       [Submit; Submit; Submit; Start]
  = Some (mkState [] ["10.0.0.2"; "10.0.0.3"] 1 ["10.0.0.1"] [] [] [] false InBlock).
Proof. vm_compute. reflexivity. Qed.

(** The schedule that [drain] builds runs a scan from start to end. *)
Example drain_example :
  drain (ping_host linux_all_up) (print_active linux_all_up) 2 20
        (init ["10.0.0.1"; "10.0.0.2"])
  = [Submit; Submit; Start; Finish 0; Start; Finish 0; Yield 0; Yield 0; Exhaust; Join].
Proof. vm_compute. reflexivity. Qed.
